(** * Service bindings of the Kubernetes tools extension

    A shallow embedding of [src/components/services/binding.ts] and
    [src/components/services/util.ts]: the parser of the service-catalog
    table, the process-wide instance cache, the values.yaml accessor and the
    add / remove flows, with the properties the specification states about
    them.

    Strings are [string]; a value that may be [undefined] is an [option];
    the JS object used as the name -> instance dictionary is a [gmap] of its
    own keys, assigned to as a plain object is (the property [__proto__] is
    not an own key).  Effects are explicit: a
    store holds the three module-level cache variables, the document object
    of the running command and the log of every call that crosses the
    external boundary; exceptions are a result constructor. *)

From Stdlib Require Import ZArith Ascii String List Bool Lia.
From stdpp Require Import base gmap strings list fin_maps.

Import ListNotations.
Open Scope Z_scope.

(* ===================================================================== *)
(** * JavaScript strings                                                  *)
(* ===================================================================== *)

Module Js.

Definition newline : ascii := "010"%char.
Definition space : ascii := " "%char.
Definition tab : ascii := "009"%char.
Definition quote : string := String "034"%char "".

(** [s.length != 0] *)
Definition nonempty (s : string) : bool :=
  match s with EmptyString => false | String _ _ => true end.

(** [s.split(sep)] for a separator of one character: the pieces between
    consecutive separators, empty pieces included; never the empty list. *)
Fixpoint split (sep : ascii) (s : string) : list string :=
  match s with
  | EmptyString => [EmptyString]
  | String c rest =>
      if Ascii.eqb c sep then EmptyString :: split sep rest
      else match split sep rest with
           | [] => [String c EmptyString]
           | piece :: pieces => String c piece :: pieces
           end
  end.

(** [xs.slice(n)] *)
Definition slice {A} (n : nat) (xs : list A) : list A := skipn n xs.

(** [xs[i]], [undefined] out of range *)
Definition at_index {A} (xs : list A) (i : nat) : option A := nth_error xs i.

(** [s.indexOf(pat)]: position of the first occurrence, or -1. *)
Fixpoint indexOf_from (pat s : string) (i : Z) : Z :=
  if String.prefix pat s then i
  else match s with
       | EmptyString => -1
       | String _ rest => indexOf_from pat rest (i + 1)
       end.

Definition indexOf (s pat : string) : Z := indexOf_from pat s 0.

(** truthiness of a number: everything except 0 (NaN does not occur) *)
Definition truthy_num (n : Z) : bool := negb (n =? 0).

(** string conversion inside a template literal *)
Definition to_string (v : option string) : string :=
  match v with Some s => s | None => "undefined" end.

(** [toUpperCase] on the ASCII letters *)
Definition upper_char (c : ascii) : ascii :=
  let n := nat_of_ascii c in
  if (Nat.leb 97 n && Nat.leb n 122)%bool then ascii_of_nat (n - 32) else c.

Fixpoint toUpperCase (s : string) : string :=
  match s with
  | EmptyString => EmptyString
  | String c rest => String (upper_char c) (toUpperCase rest)
  end.

(** [xs.join(sep)] *)
Fixpoint join (sep : string) (xs : list string) : string :=
  match xs with
  | [] => EmptyString
  | [x] => x
  | x :: rest => x +:+ sep +:+ join sep rest
  end.

End Js.

(* ===================================================================== *)
(** * Data model                                                          *)
(* ===================================================================== *)

Inductive ServiceType := serviceEnv | serviceCatalogEnv.

Record Service := { svc_name : string; svc_namespace : string }.

(** Every field is [filtered[i]], hence [undefined] on a short row. *)
Record ServiceInstance := {
  name : option string;
  namespace : option string;
  class : option string;
  plan : option string;
  status : option string
}.

(** The three exported module variables. *)
Record InstanceCache := {
  ServiceInstanceNames : list (option string);
  ServiceInstanceArray : list ServiceInstance;
  ServiceInstanceMap : gmap string ServiceInstance
}.

Definition empty_cache : InstanceCache :=
  {| ServiceInstanceNames := []; ServiceInstanceArray := []; ServiceInstanceMap := ∅ |}.

(** The [value] argument of [writeSecretData]: [string | string[]]. *)
Inductive SecretValue := VString (s : string) | VKeys (ks : list string).

(** The two shapes an entry of a binding section has. *)
Inductive BindingEntry :=
| ServiceBinding (bname : string) (value : SecretValue)
| ServiceCatalogBinding (bname : string) (vars : SecretValue).

Definition binding_name (b : BindingEntry) : string :=
  match b with ServiceBinding n _ => n | ServiceCatalogBinding n _ => n end.

(** The parsed values.yaml: the two optional binding sections ([None] when
    the key is absent) and the rest of the document, which the code never
    looks at. *)
Record Yaml := {
  y_serviceEnv : option (list BindingEntry);
  y_serviceCatalogEnv : option (list BindingEntry);
  y_others : list (string * string)
}.

Record ChartYaml := { path : string; yaml : Yaml }.

(** [yaml[serviceType]] *)
Definition section (t : ServiceType) (y : Yaml) : option (list BindingEntry) :=
  match t with
  | serviceEnv => y_serviceEnv y
  | serviceCatalogEnv => y_serviceCatalogEnv y
  end.

(** [yaml[serviceType] = v] *)
Definition set_section (t : ServiceType) (v : list BindingEntry) (y : Yaml) : Yaml :=
  match t with
  | serviceEnv =>
      {| y_serviceEnv := Some v; y_serviceCatalogEnv := y_serviceCatalogEnv y;
         y_others := y_others y |}
  | serviceCatalogEnv =>
      {| y_serviceEnv := y_serviceEnv y; y_serviceCatalogEnv := Some v;
         y_others := y_others y |}
  end.

(* ===================================================================== *)
(** * The tabular result parser                                           *)
(* ===================================================================== *)

(** One iteration of the [for] loop of [cleanUpInstanceResults]: the record
    of a line, stored in the three cache variables and in the result. *)
Definition instance_of_line (line : string) : ServiceInstance :=
  let filtered := List.filter Js.nonempty (Js.split Js.space line) in
  {| name := Js.at_index filtered 0;
     namespace := Js.at_index filtered 1;
     class := Js.at_index filtered 2;
     plan := Js.at_index filtered 3;
     status := Js.at_index filtered 4 |}.

(** [obj[k] = v] on a plain object used as a dictionary.  The property
    [__proto__] is the accessor inherited from [Object.prototype]: assigning
    an object to it replaces the prototype and adds no own key, so
    [Object.keys] does not see it. *)
Definition assign {V} (k : string) (v : V) (obj : gmap string V) : gmap string V :=
  if String.eqb k "__proto__" then obj else <[k := v]> obj.

Definition cache_add (serviceInstance : ServiceInstance) (c : InstanceCache) : InstanceCache :=
  {| ServiceInstanceMap :=
       assign (Js.to_string (name serviceInstance)) serviceInstance (ServiceInstanceMap c);
     ServiceInstanceNames := ServiceInstanceNames c ++ [name serviceInstance];
     ServiceInstanceArray := ServiceInstanceArray c ++ [serviceInstance] |}.

Fixpoint cleanUp_loop (splitResults : list string)
    (c : InstanceCache) (cleanedResults : list ServiceInstance)
    : list ServiceInstance * InstanceCache :=
  match splitResults with
  | [] => (cleanedResults, c)
  | line :: rest =>
      let serviceInstance := instance_of_line line in
      cleanUp_loop rest (cache_add serviceInstance c) (cleanedResults ++ [serviceInstance])
  end.

Definition cleanUpInstanceResults (results : string) (c : InstanceCache)
    : list ServiceInstance * InstanceCache :=
  let splitResults :=
    List.filter Js.nonempty (Js.slice 2 (Js.split Js.newline results)) in
  cleanUp_loop splitResults c [].


(* ===================================================================== *)
(** * Effects                                                             *)
(* ===================================================================== *)

(** What a shell or kubectl invocation resolves to. *)
Record ShellResult := { code : Z; stdout : string; stderr : string }.

Inductive ExecOutcome := Rejected | Resolved (r : ShellResult).

(** Every call that crosses the external boundary is logged. *)
Inductive Event :=
| EvPickChart
| EvKubectl (command : string)
| EvExec (command : string)
| EvQuickPick (items : list (option string)) (placeHolder : string)
| EvInfo (message : string)
| EvError (message : string)
| EvUnlink (file : string)
| EvWriteFile (file : string) (content : Yaml)
| EvClipboard (text : string).

Inductive Exn := TypeError | SyntaxError | HostError.

(** The collaborators.  Each answer may depend on the log so far (most
    recent event first), so the same command can be answered differently at
    different times. *)
Record World := {
  (** [pickChart] then [yamljs.load]: the loaded document, [None] when the
      load throws *)
  w_loadChart : list Event -> option ChartYaml;
  w_kubectl : list Event -> string -> ExecOutcome;
  w_execCore : list Event -> string -> ExecOutcome;
  (** [host.showQuickPick]: [None] is [undefined] (dismissed) *)
  w_showQuickPick : list Event -> list (option string) -> option string;
  (** [JSON.parse(stdout).items] read as services; [None] when it throws *)
  w_parseServices : string -> option (list Service);
  (** [JSON.parse(stdout).data]: [None] when the expression throws,
      [Some None] when the document has no [data], else the keys of [data]
      in order *)
  w_parseSecret : string -> option (option (list string));
  (** what the expression throws when it does: the SyntaxError of
      [JSON.parse] on text that is not JSON, the TypeError of [.data] on a
      text that parses to [null] *)
  w_parseError : string -> Exn;
  w_unlinkAsync : list Event -> string -> bool;
  w_writeFile : list Event -> string -> bool;
  w_clipboard : list Event -> bool
}.

Inductive Res (A : Type) := Ret (a : A) | Throw (e : Exn).
Arguments Ret {A} a.
Arguments Throw {A} e.

(** The store: the module-level cache, the document object of the running
    command ([chartYaml], mutated in place by the writers) and the log. *)
Record Store := {
  cache : InstanceCache;
  document : option ChartYaml;
  trace : list Event
}.

Definition initial_store : Store :=
  {| cache := empty_cache; document := None; trace := [] |}.

Definition M (A : Type) : Type := Store -> Res A * Store.

Definition ret {A} (a : A) : M A := fun s => (Ret a, s).
Definition throw {A} (e : Exn) : M A := fun s => (Throw e, s).
Definition bind {A B} (m : M A) (k : A -> M B) : M B :=
  fun s => match m s with
           | (Ret a, s') => k a s'
           | (Throw e, s') => (Throw e, s')
           end.
Definition try_catch {A} (m : M A) (handler : M A) : M A :=
  fun s => match m s with
           | (Ret a, s') => (Ret a, s')
           | (Throw _, s') => handler s'
           end.

Notation "x <- m ;; k" := (bind m (fun x => k))
  (at level 100, m at next level, right associativity).
Notation "m ;;; k" := (bind m (fun _ => k))
  (at level 100, right associativity).

Definition emit (e : Event) : M unit :=
  fun s => (Ret tt, {| cache := cache s; document := document s; trace := e :: trace s |}).
Definition get_trace : M (list Event) := fun s => (Ret (trace s), s).
Definition get_cache : M InstanceCache := fun s => (Ret (cache s), s).
Definition set_cache (c : InstanceCache) : M unit :=
  fun s => (Ret tt, {| cache := c; document := document s; trace := trace s |}).
Definition set_document (d : ChartYaml) : M unit :=
  fun s => (Ret tt, {| cache := cache s; document := Some d; trace := trace s |}).

(** The value [createOrGetServiceBinding] resolves to:
    [string | null], or [undefined] after a bare [return]. *)
Inductive Binding := BUndefined | BNull | BString (s : string).

Definition binding_of (serviceName : option string) : Binding :=
  match serviceName with Some s => BString s | None => BUndefined end.

(** [!binding] is false exactly on a non-empty string *)
Definition truthy (b : Binding) : bool :=
  match b with BString s => Js.nonempty s | _ => false end.

(** what [for (const x of secretKeys)] iterates over *)
Definition iterate (v : SecretValue) : list string :=
  match v with
  | VKeys ks => ks
  | VString s => List.map (fun c => String c EmptyString) (list_ascii_of_string s)
  end.

(** [isBindingAdded] of util.ts *)
Definition isBindingAdded (serviceType : ServiceType) (bindingName : string)
    (valuesYaml : Yaml) : bool :=
  match section serviceType valuesYaml with
  | None => false
  | Some environment =>
      existsb (fun binding => String.eqb (binding_name binding) bindingName) environment
  end.

(** The [switch] of [writeSecretData]: the entry of the kind, pushed on the
    section or made its only element. *)
Definition push_binding (serviceType : ServiceType) (bindingName : string)
    (value : SecretValue) (y : Yaml) : Yaml :=
  match serviceType with
  | serviceEnv =>
      let serviceBinding := ServiceBinding bindingName value in
      match y_serviceEnv y with
      | Some entries => set_section serviceEnv (entries ++ [serviceBinding]) y
      | None => set_section serviceEnv [serviceBinding] y
      end
  | serviceCatalogEnv =>
      let serviceCatalogBinding := ServiceCatalogBinding bindingName value in
      match y_serviceCatalogEnv y with
      | Some entries => set_section serviceCatalogEnv (entries ++ [serviceCatalogBinding]) y
      | None => set_section serviceCatalogEnv [serviceCatalogBinding] y
      end
  end.

Section Flows.

Variable w : World.

(** ** Collaborators *)

Definition showInformationMessage (message : string) : M unit := emit (EvInfo message).
Definition showErrorMessage (message : string) : M unit := emit (EvError message).

Definition showQuickPick (items : list (option string)) (placeHolder : string)
    : M (option string) :=
  h <- get_trace ;;
  emit (EvQuickPick items placeHolder) ;;;
  ret (w_showQuickPick w h items).

Definition settle (o : ExecOutcome) : M ShellResult :=
  match o with Rejected => throw HostError | Resolved r => ret r end.

Definition kubectl_invokeAsync (command : string) : M ShellResult :=
  h <- get_trace ;; emit (EvKubectl command) ;;; settle (w_kubectl w h command).

Definition execCore (command : string) : M ShellResult :=
  h <- get_trace ;; emit (EvExec command) ;;; settle (w_execCore w h command).

Definition succeed (ok : bool) : M unit := if ok then ret tt else throw HostError.

Definition unlinkAsync (file : string) : M unit :=
  h <- get_trace ;; emit (EvUnlink file) ;;; succeed (w_unlinkAsync w h file).

Definition writeFile (file : string) (content : Yaml) : M unit :=
  h <- get_trace ;; emit (EvWriteFile file content) ;;; succeed (w_writeFile w h file).

Definition clipboardy_write (text : string) : M unit :=
  h <- get_trace ;; emit (EvClipboard text) ;;; succeed (w_clipboard w h).

(** ** util.ts *)

Definition loadChartValues : M ChartYaml :=
  h <- get_trace ;;
  emit EvPickChart ;;;
  match w_loadChart w h with
  | None => throw HostError
  | Some chartYaml => set_document chartYaml ;;; ret chartYaml
  end.

Definition writeSecretData (serviceType : ServiceType) (bindingName : string)
    (value : SecretValue) (chartYaml : ChartYaml) : M unit :=
  let y := push_binding serviceType bindingName value (yaml chartYaml) in
  set_document {| path := path chartYaml; yaml := y |} ;;;
  unlinkAsync (path chartYaml) ;;;
  writeFile (path chartYaml) y.

Definition writeUsageToClipboard (serviceType : ServiceType) (bindingName : string)
    (secretKeys : SecretValue) : M unit :=
  match serviceType with
  | serviceEnv =>
      clipboardy_write
        ("// To use service " +:+ bindingName
         +:+ ", we added an environment variable containing the DNS hostname: SERVICE_"
         +:+ Js.toUpperCase bindingName)
  | serviceCatalogEnv =>
      showInformationMessage "Wrote Service Usage information to your clipboard." ;;;
      let environmentVariableMessages :=
        List.map (fun variableName =>
                    "// " +:+ Js.toUpperCase (bindingName +:+ "_" +:+ variableName))
                 (iterate secretKeys) in
      clipboardy_write
        ("// To use service " +:+ bindingName
         +:+ ", we added a number of environment variables"
         +:+ String Js.newline "// to your application, as listed below:"
         +:+ String Js.newline (Js.join (String Js.newline "") environmentVariableMessages))
  end.

Definition removeServiceBinding (serviceType : ServiceType) : M unit :=
  chartYaml <- loadChartValues ;;
  match section serviceType (yaml chartYaml) with
  | None => throw TypeError (* .length of undefined *)
  | Some entries =>
      if (length entries =? 0)%nat then showInformationMessage "No Services to remove."
      else
        let chartBindings := List.map (fun binding => Some (binding_name binding)) entries in
        bindingToRemove <- showQuickPick chartBindings "Select a Service to remove" ;;
        match bindingToRemove with
        | None => ret tt
        | Some selected =>
            if String.eqb selected "" then ret tt
            else
              let prunedChartBindings :=
                List.filter (fun binding => negb (String.eqb (binding_name binding) selected))
                            entries in
              let y := set_section serviceType prunedChartBindings (yaml chartYaml) in
              set_document {| path := path chartYaml; yaml := y |} ;;;
              unlinkAsync (path chartYaml) ;;;
              writeFile (path chartYaml) y
        end
  end.

(** ** binding.ts *)

Definition getSecretData (secretName : string) : M (option (list string)) :=
  secretResults <-
    try_catch
      (r <- kubectl_invokeAsync ("get secret " +:+ secretName +:+ " -o json") ;; ret (Some r))
      (showErrorMessage
         ("Could not find the External Service secret " +:+ secretName +:+ " on the cluster") ;;;
       ret None) ;;
  match secretResults with
  | None => ret None
  | Some r =>
      if negb (code r =? 0) then
        showErrorMessage
          ("Could not get External Service " +:+ secretName +:+ " on the cluster") ;;;
        ret None
      else
        match w_parseSecret w (stdout r) with
        | None => throw (w_parseError w (stdout r))
        | Some data => ret data
        end
  end.

Definition createOrGetServiceBinding (serviceName : option string) : M Binding :=
  results <-
    try_catch
      (r <- execCore ("svcat bind " +:+ Js.to_string serviceName) ;; ret (Some r))
      (showErrorMessage
         ("Error binding to External Service " +:+ Js.quote
          +:+ Js.to_string serviceName +:+ Js.quote) ;;;
       ret None) ;;
  match results with
  | None => ret BUndefined
  | Some r =>
      if negb (code r =? 0) then
        if Js.truthy_num (Js.indexOf (stderr r) "already exists") then
          ret (binding_of serviceName)
        else
          showErrorMessage
            ("Could not bind to External Service " +:+ Js.quote
             +:+ Js.to_string serviceName +:+ Js.quote) ;;;
          ret BNull
      else ret (binding_of serviceName)
  end.

(** [names.length !== 0 && Object.keys(map).length !== 0] *)
Definition cache_filled (c : InstanceCache) : bool :=
  (negb (length (ServiceInstanceNames c) =? 0)%nat
   && negb (size (ServiceInstanceMap c) =? 0)%nat)%bool.

(** [names.length === 0 && Object.keys(map).length === 0] *)
Definition cache_blank (c : InstanceCache) : bool :=
  ((length (ServiceInstanceNames c) =? 0)%nat
   && (size (ServiceInstanceMap c) =? 0)%nat)%bool.

Definition getServiceInstances : M (option (list ServiceInstance)) :=
  c <- get_cache ;;
  if cache_filled c then ret (Some (ServiceInstanceArray c))
  else
    results <-
      try_catch
        (r <- execCore "svcat get instances" ;; ret (Some r))
        (showErrorMessage "Error retrieving Service Instances" ;;; ret None) ;;
    match results with
    | None => ret None
    | Some r =>
        if negb (code r =? 0) then
          showErrorMessage "Error retrieving Service Instances" ;;; ret None
        else
          c0 <- get_cache ;;
          let '(cleanedResults, c1) := cleanUpInstanceResults (stdout r) c0 in
          set_cache c1 ;;; ret (Some cleanedResults)
    end.

Definition addService : M unit :=
  chartYaml <- loadChartValues ;;
  serviceResult <- kubectl_invokeAsync "get svc -o json" ;;
  if code serviceResult =? -1 then ret tt
  else
    match w_parseServices w (stdout serviceResult) with
    | None => throw SyntaxError
    | Some items =>
        if (length items =? 0)%nat then
          showInformationMessage "No services found in current namespace"
        else
          let services := items in
          let serviceNames := List.map (fun service => Some (svc_name service)) items in
          selectedService <-
            showQuickPick serviceNames "Select a Kubernetes service to bind" ;;
          if match selectedService with Some s => String.eqb s "" | None => false end
          then ret tt
          else
            match List.filter
                    (fun service =>
                       match selectedService with
                       | Some s => String.eqb (svc_name service) s
                       | None => false
                       end) services with
            | [] => throw TypeError (* serviceObj is undefined *)
            | serviceObj :: _ =>
                let dnsName :=
                  svc_name serviceObj +:+ "." +:+ svc_namespace serviceObj
                  +:+ ".svc.cluster.local" in
                if isBindingAdded serviceEnv (svc_name serviceObj) (yaml chartYaml)
                then ret tt
                else
                  writeSecretData serviceEnv (svc_name serviceObj) (VString dnsName)
                                  chartYaml ;;;
                  writeUsageToClipboard serviceEnv (svc_name serviceObj)
                                        (VString (svc_name serviceObj)) ;;;
                  showInformationMessage "Wrote service info to your clipboard"
            end
    end.

Definition removeService : M unit := removeServiceBinding serviceEnv.

Definition addExternalService : M unit :=
  chartYaml <- loadChartValues ;;
  c <- get_cache ;;
  (if cache_blank c then (_ <- getServiceInstances ;; ret tt) else ret tt) ;;;
  c' <- get_cache ;;
  serviceToBind <-
    showQuickPick (ServiceInstanceNames c')
                  "Pick an External Service to add to the selected application" ;;
  binding <- createOrGetServiceBinding serviceToBind ;;
  if negb (truthy binding) then ret tt
  else
    match binding with
    | BUndefined | BNull => ret tt
    | BString b =>
        if isBindingAdded serviceCatalogEnv b (yaml chartYaml) then ret tt
        else
          secretData <- getSecretData b ;;
          match secretData with
          | None => throw TypeError (* Object.keys(undefined) *)
          | Some secretKeys =>
              writeSecretData serviceCatalogEnv b (VKeys secretKeys) chartYaml ;;;
              writeUsageToClipboard serviceCatalogEnv b (VKeys secretKeys) ;;;
              showInformationMessage
                ("Bound the application to External Service " +:+ Js.quote
                 +:+ Js.to_string serviceToBind +:+ Js.quote)
          end
    end.

Definition removeExternalService : M unit := removeServiceBinding serviceCatalogEnv.

End Flows.

(* ===================================================================== *)
(** * Running commands                                                    *)
(* ===================================================================== *)

(** The exported operations of binding.ts. *)
Inductive Command :=
| CmdAddService
| CmdRemoveService
| CmdAddExternalService
| CmdRemoveExternalService
| CmdGetServiceInstances.

Definition run (w : World) (cmd : Command) (s : Store) : Store :=
  match cmd with
  | CmdAddService => snd (addService w s)
  | CmdRemoveService => snd (removeService w s)
  | CmdAddExternalService => snd (addExternalService w s)
  | CmdRemoveExternalService => snd (removeExternalService w s)
  | CmdGetServiceInstances => snd (getServiceInstances w s)
  end.

(** The stores one process can be in: the module is loaded with an empty
    cache, then commands run one after another. *)
Inductive reachable (w : World) : Store -> Prop :=
| reach_start : reachable w initial_store
| reach_run s cmd : reachable w s -> reachable w (run w cmd s).

(** a property name that an assignment turns into an own key *)
Definition own_key (k : string) : bool := negb (String.eqb k "__proto__").

(** the own keys the records of a list are stored under *)
Definition own_keys (rows : list ServiceInstance) : list string :=
  List.filter own_key (List.map (fun i => Js.to_string (name i)) rows).

(** some record of the list is stored under an own key *)
Definition has_own_key (rows : list ServiceInstance) : bool :=
  existsb (fun i => own_key (Js.to_string (name i))) rows.

(** no record of the list is named [__proto__] *)
Definition proto_free (rows : list ServiceInstance) : Prop :=
  Forall (fun i => own_key (Js.to_string (name i)) = true) rows.

(** The three views of the cache agree: the names are those of the records,
    and the dictionary has the own keys of the records. *)
Definition cache_sync (c : InstanceCache) : Prop :=
  ServiceInstanceNames c = List.map name (ServiceInstanceArray c)
  /\ dom (ServiceInstanceMap c) = list_to_set (own_keys (ServiceInstanceArray c)).

Definition is_discovery (e : Event) : bool :=
  match e with EvExec command => String.eqb command "svcat get instances" | _ => false end.

Definition discovery_calls (t : list Event) : nat := length (List.filter is_discovery t).

Definition is_persistence (e : Event) : bool :=
  match e with EvUnlink _ | EvWriteFile _ _ => true | _ => false end.

Definition persistence_calls (t : list Event) : list Event := List.filter is_persistence t.

Definition is_notice (e : Event) : bool :=
  match e with EvInfo _ | EvError _ => true | _ => false end.

Definition notices (t : list Event) : list Event := List.filter is_notice t.

(* ===================================================================== *)
(** * The parser as the specification words it                            *)
(* ===================================================================== *)

Module TableSpec.

(** the separators of "whitespace runs": space, tab, LF, VT, FF, CR *)
Definition is_whitespace (c : ascii) : bool :=
  let n := nat_of_ascii c in
  (Nat.eqb n 32 || (Nat.leb 9 n && Nat.leb n 13))%bool.

(** the only separator [line.split(' ')] knows *)
Definition is_blank (c : ascii) : bool := Ascii.eqb c Js.space.

(** the lines of a text, scanning left to right with the current line *)
Fixpoint lines_from (current : string) (text : string) : list string :=
  match text with
  | EmptyString => [current]
  | String c rest =>
      if Ascii.eqb c Js.newline then current :: lines_from EmptyString rest
      else lines_from (current +:+ String c EmptyString) rest
  end.

Definition lines (text : string) : list string := lines_from EmptyString text.

(** the fields of a row: the maximal runs of non-separator characters *)
Fixpoint fields_from (sep : ascii -> bool) (current : string) (row : string)
    : list string :=
  match row with
  | EmptyString => if Js.nonempty current then [current] else []
  | String c rest =>
      if sep c then
        if Js.nonempty current then current :: fields_from sep EmptyString rest
        else fields_from sep EmptyString rest
      else fields_from sep (current +:+ String c EmptyString) rest
  end.

Definition fields (sep : ascii -> bool) (row : string) : list string :=
  fields_from sep EmptyString row.

(** positional fields 0..4 *)
Definition record_of (fs : list string) : ServiceInstance :=
  {| name := nth_error fs 0; namespace := nth_error fs 1; class := nth_error fs 2;
     plan := nth_error fs 3; status := nth_error fs 4 |}.

(** the data rows: everything after the first two lines, empty lines
    dropped *)
Definition data_rows (text : string) : list string :=
  List.filter Js.nonempty (skipn 2 (lines text)).

Definition parse (sep : ascii -> bool) (text : string) : list ServiceInstance :=
  List.map (fun row => record_of (fields sep row)) (data_rows text).

End TableSpec.

(** "TITLE\nNAME NAMESPACE CLASS PLAN STATUS\nfoo  default  mysqldb  free  Ready\n" *)
Definition scenario_table : string :=
  "TITLE" +:+ String Js.newline "NAME NAMESPACE CLASS PLAN STATUS"
  +:+ String Js.newline "foo  default  mysqldb  free  Ready" +:+ String Js.newline "".

Definition scenario_record : ServiceInstance :=
  {| name := Some "foo"; namespace := Some "default"; class := Some "mysqldb";
     plan := Some "free"; status := Some "Ready" |}.

(** A row whose first two fields are separated by a tab. *)
Definition tabbed_table : string :=
  "TITLE" +:+ String Js.newline "NAME NAMESPACE CLASS PLAN STATUS"
  +:+ String Js.newline ("foo" +:+ String Js.tab "default mysqldb free Ready").

(** The parser claim with "whitespace runs" read as written. *)
Definition parser_claim : Prop :=
  (forall text c,
      fst (cleanUpInstanceResults text c) = TableSpec.parse TableSpec.is_whitespace text)
  /\ (forall c, fst (cleanUpInstanceResults scenario_table c) = [scenario_record]).

(** The cache after the loop has run over the rows. *)
Definition cache_extend (rows : list ServiceInstance) (c : InstanceCache) : InstanceCache :=
  fold_left (fun acc row => cache_add row acc) rows c.

(* ===================================================================== *)
(** * A concrete cluster                                                  *)
(* ===================================================================== *)

Definition ok_result (out : string) : ShellResult :=
  {| code := 0; stdout := out; stderr := "" |}.

Definition failed_result (err : string) : ShellResult :=
  {| code := 1; stdout := ""; stderr := err |}.

Definition redis_entry : BindingEntry :=
  ServiceBinding "redis" (VString "redis.default.svc.cluster.local").

Definition demo_yaml : Yaml :=
  {| y_serviceEnv := Some [redis_entry];
     y_serviceCatalogEnv := None;
     y_others := [("replicaCount", "1")] |}.

Definition demo_chart (y : Yaml) : ChartYaml :=
  {| path := "mychart/values.yaml"; yaml := y |}.

(** A cluster with the service [redis] and the catalog instance [foo]; the
    document, the answer to every prompt and the outcomes of [svcat bind]
    and of [kubectl get secret] are left open. *)
Definition demo_world (y : Yaml) (selection : option string)
    (bind_outcome secret_outcome : ExecOutcome) : World :=
  {| w_loadChart := fun _ => Some (demo_chart y);
     w_kubectl := fun _ command =>
       if String.prefix "get secret" command then secret_outcome
       else Resolved (ok_result "{items}");
     w_execCore := fun _ command =>
       if String.eqb command "svcat get instances" then Resolved (ok_result scenario_table)
       else bind_outcome;
     w_showQuickPick := fun _ _ => selection;
     w_parseServices := fun _ => Some [{| svc_name := "redis"; svc_namespace := "default" |}];
     w_parseSecret := fun _ => Some (Some ["host"; "password"]);
     w_parseError := fun _ => SyntaxError;
     w_unlinkAsync := fun _ _ => true;
     w_writeFile := fun _ _ => true;
     w_clipboard := fun _ => true |}.

(* ===================================================================== *)
(** * Vocabulary of the document properties                               *)
(* ===================================================================== *)

(** the BindingEntry shape of a kind *)
Definition entry_of (t : ServiceType) (bindingName : string) (value : SecretValue)
    : BindingEntry :=
  match t with
  | serviceEnv => ServiceBinding bindingName value
  | serviceCatalogEnv => ServiceCatalogBinding bindingName value
  end.

Definition other_kind (t : ServiceType) : ServiceType :=
  match t with serviceEnv => serviceCatalogEnv | serviceCatalogEnv => serviceEnv end.

(** the entries of a section, none when it is absent *)
Definition entries_of (sec : option (list BindingEntry)) : list BindingEntry :=
  match sec with Some entries => entries | None => [] end.

(** how many entries of a section are named [Y] *)
Definition count_named (Y : string) (entries : list BindingEntry) : nat :=
  length (List.filter (fun b => String.eqb (binding_name b) Y) entries).

(** the section of the document object held by a store *)
Definition section_of_document (t : ServiceType) (s : Store) : option (list BindingEntry) :=
  match document s with Some d => section t (yaml d) | None => None end.

(** The removal claim for every selection [Y], the empty name included. *)
Definition removal_claim : Prop :=
  forall (w : World) (s : Store) (t : ServiceType) (doc : ChartYaml)
         (entries : list BindingEntry) (Y : string),
    (forall h, w_loadChart w h = Some doc) ->
    section t (yaml doc) = Some entries ->
    (forall h items, w_showQuickPick w h items = Some Y) ->
    let after := section_of_document t (snd (removeServiceBinding w t s)) in
    (count_named Y entries = 1%nat ->
     exists entries', after = Some entries'
                      /\ length entries' = (length entries - 1)%nat
                      /\ count_named Y entries' = 0%nat)
    /\ (count_named Y entries = 0%nat -> after = Some entries).

(** A document whose only [serviceEnv] entry has the empty name. *)
Definition unnamed_yaml : Yaml :=
  {| y_serviceEnv := Some [ServiceBinding "" (VString "x.default.svc.cluster.local")];
     y_serviceCatalogEnv := None;
     y_others := [] |}.

(** A document without any binding section. *)
Definition bare_yaml : Yaml :=
  {| y_serviceEnv := None; y_serviceCatalogEnv := None; y_others := [("replicaCount", "1")] |}.

(** A computation keeps an invariant of the store, however it ends. *)
Definition stable {A} (I : Store -> Prop) (m : M A) : Prop :=
  forall s, I s -> I (snd (m s)).

(** The invariant of the process: the cache views agree. *)
Definition synced (s : Store) : Prop := cache_sync (cache s).

(** a secret lookup that fails: the process cannot run, or exits non-zero *)
Definition lookup_fails (o : ExecOutcome) : bool :=
  match o with
  | Rejected => true
  | Resolved r => negb (code r =? 0)
  end.

(** the prompts in a log *)
Definition is_prompt (e : Event) : bool :=
  match e with EvQuickPick _ _ => true | _ => false end.

Definition prompts (t : list Event) : list Event := List.filter is_prompt t.

(** The log of [s'] is the log of [s] with events put on top, none of them
    a prompt. *)
Definition unprompted (s s' : Store) : Prop :=
  exists mid, trace s' = mid ++ trace s /\ prompts mid = [].

(** The lazy population of the cache at the start of [addExternalService]. *)
Definition populate (w : World) (c : InstanceCache) : M unit :=
  if cache_blank c then (_ <- getServiceInstances w ;; ret tt) else ret tt.

(** [s'] has the document object and the persistence calls of [s]. *)
Definition quiet (s s' : Store) : Prop :=
  document s' = document s
  /\ persistence_calls (trace s') = persistence_calls (trace s).

(* ===================================================================== *)
(** * Vocabulary of the further properties                                *)
(* ===================================================================== *)

(** [c] occurs in [s] *)
Fixpoint occurs (c : ascii) (s : string) : bool :=
  match s with
  | EmptyString => false
  | String d rest => (Ascii.eqb d c || occurs c rest)%bool
  end.

(** the five fields of a record, in column order *)
Definition columns (r : ServiceInstance) : list (option string) :=
  [name r; namespace r; class r; plan r; status r].

(** the property key a record is stored under *)
Definition key_of (r : ServiceInstance) : string := Js.to_string (name r).

(** the last record of a list that is stored under the key [k] *)
Definition last_named (k : string) (rows : list ServiceInstance) : option ServiceInstance :=
  List.find (fun r => String.eqb (key_of r) k) (rev rows).

(** Every entry of the dictionary is one of the cached records, stored
    under its own name. *)
Definition cache_indexed (c : InstanceCache) : Prop :=
  forall k v, ServiceInstanceMap c !! k = Some v ->
              In v (ServiceInstanceArray c) /\ key_of v = k.

(** The cache of [s'] is the cache of [s] with rows added at the end. *)
Definition grown (s s' : Store) : Prop :=
  exists rows, cache s' = cache_extend rows (cache s).

(** [s'] has the cache of [s] and has run discovery as often as [s]. *)
Definition frozen (s s' : Store) : Prop :=
  cache s' = cache s /\ discovery_calls (trace s') = discovery_calls (trace s).

(** A computation started in a store satisfying [P] ends, normally or by
    an exception, in a store satisfying [Q]. *)
Definition hoare {A} (P : Store -> Prop) (m : M A) (Q : Store -> Prop) : Prop :=
  forall s, P s -> Q (snd (m s)).

(** The log of [s'] is the log of [s] with events put on top, none of them
    a file operation. *)
Definition untouched (s s' : Store) : Prop :=
  exists mid, trace s' = mid ++ trace s /\ persistence_calls mid = [].

(** Since [s] the file was rewritten once: after events [mid] that are not
    file operations it was unlinked; if that unlink failed no file operation
    followed, otherwise exactly one did, the write of the content of the
    document object of [s']. *)
Definition rewritten_once (w : World) (s s' : Store) : Prop :=
  exists p y mid post,
    document s' = Some {| path := p; yaml := y |}
    /\ trace s' = post ++ EvUnlink p :: mid ++ trace s
    /\ persistence_calls mid = []
    /\ ((w_unlinkAsync w (mid ++ trace s) p = false /\ persistence_calls post = [])
        \/ (w_unlinkAsync w (mid ++ trace s) p = true
            /\ persistence_calls post = [EvWriteFile p y])).

Definition persisted (w : World) (s s' : Store) : Prop :=
  untouched s s' \/ rewritten_once w s s'.

(** the secret lookups in a log *)
Definition is_lookup (e : Event) : bool :=
  match e with EvKubectl command => String.prefix "get secret" command | _ => false end.

Definition secret_lookups (t : list Event) : list Event := List.filter is_lookup t.

(** the store right after the chart was picked and loaded *)
Definition loaded (doc : ChartYaml) (s : Store) : Store :=
  {| cache := cache s; document := Some doc; trace := EvPickChart :: trace s |}.

(** the store right after a failed attempt to load the chart *)
Definition unloaded (s : Store) : Store :=
  {| cache := cache s; document := document s; trace := EvPickChart :: trace s |}.

(** The services of the in-cluster flow that are named [X]. *)
Definition named_services (X : string) (items : list Service) : list Service :=
  List.filter (fun service => String.eqb (svc_name service) X) items.

(** A world in which the chart cannot be loaded. *)
Definition chartless_world : World :=
  {| w_loadChart := fun _ => None;
     w_kubectl := fun _ _ => Resolved (ok_result "{items}");
     w_execCore := fun _ _ => Resolved (ok_result scenario_table);
     w_showQuickPick := fun _ _ => Some "foo";
     w_parseServices := fun _ => Some [{| svc_name := "redis"; svc_namespace := "default" |}];
     w_parseSecret := fun _ => Some (Some ["host"]);
     w_parseError := fun _ => SyntaxError;
     w_unlinkAsync := fun _ _ => true;
     w_writeFile := fun _ _ => true;
     w_clipboard := fun _ => true |}.

(** A world in which [svcat] exits with an error. *)
Definition chartless_world_failing : World :=
  {| w_loadChart := fun _ => None;
     w_kubectl := fun _ _ => Rejected;
     w_execCore := fun _ _ => Resolved (failed_result "svcat: no cluster");
     w_showQuickPick := fun _ _ => None;
     w_parseServices := fun _ => None;
     w_parseSecret := fun _ => None;
     w_parseError := fun _ => SyntaxError;
     w_unlinkAsync := fun _ _ => true;
     w_writeFile := fun _ _ => true;
     w_clipboard := fun _ => true |}.

(** The concrete cluster without a usable clipboard. *)
Definition clipless_world : World :=
  {| w_loadChart := fun _ => Some (demo_chart demo_yaml);
     w_kubectl := fun _ _ => Resolved (ok_result "{items}");
     w_execCore := fun _ _ => Resolved (ok_result scenario_table);
     w_showQuickPick := fun _ _ => Some "foo";
     w_parseServices := fun _ => Some [{| svc_name := "redis"; svc_namespace := "default" |}];
     w_parseSecret := fun _ => Some (Some ["host"]);
     w_parseError := fun _ => SyntaxError;
     w_unlinkAsync := fun _ _ => true;
     w_writeFile := fun _ _ => true;
     w_clipboard := fun _ => false |}.

(** The table of a catalog whose one instance is listed as [__proto__]. *)
Definition proto_table : string :=
  "TITLE" +:+ String Js.newline "NAME NAMESPACE CLASS PLAN STATUS"
  +:+ String Js.newline "__proto__  default  mysqldb  free  Ready" +:+ String Js.newline "".

Definition proto_record : ServiceInstance :=
  {| name := Some "__proto__"; namespace := Some "default"; class := Some "mysqldb";
     plan := Some "free"; status := Some "Ready" |}.

(** A cluster whose first discovery lists [__proto__] and whose later
    discoveries list [foo]. *)
Definition proto_world : World :=
  {| w_loadChart := fun _ => Some (demo_chart demo_yaml);
     w_kubectl := fun _ _ => Resolved (ok_result "{items}");
     w_execCore := fun h _ =>
       if (discovery_calls h =? 0)%nat then Resolved (ok_result proto_table)
       else Resolved (ok_result scenario_table);
     w_showQuickPick := fun _ _ => Some "foo";
     w_parseServices := fun _ => Some [{| svc_name := "redis"; svc_namespace := "default" |}];
     w_parseSecret := fun _ => Some (Some ["host"]);
     w_parseError := fun _ => SyntaxError;
     w_unlinkAsync := fun _ _ => true;
     w_writeFile := fun _ _ => true;
     w_clipboard := fun _ => true |}.

(** The concrete cluster with a file system that refuses to unlink. *)
Definition readonly_world (y : Yaml) : World :=
  {| w_loadChart := fun _ => Some (demo_chart y);
     w_kubectl := fun _ _ => Resolved (ok_result "{items}");
     w_execCore := fun _ _ => Resolved (ok_result scenario_table);
     w_showQuickPick := fun _ _ => Some "redis";
     w_parseServices := fun _ => Some [{| svc_name := "redis"; svc_namespace := "default" |}];
     w_parseSecret := fun _ => Some (Some ["host"]);
     w_parseError := fun _ => SyntaxError;
     w_unlinkAsync := fun _ _ => false;
     w_writeFile := fun _ _ => true;
     w_clipboard := fun _ => true |}.

(** The concrete cluster with another answer of [kubectl get svc]. *)
Definition services_world (y : Yaml) (selection : option string)
    (listing : ShellResult) (items : list Service) : World :=
  {| w_loadChart := fun _ => Some (demo_chart y);
     w_kubectl := fun _ _ => Resolved listing;
     w_execCore := fun _ _ => Rejected;
     w_showQuickPick := fun _ _ => selection;
     w_parseServices := fun _ => Some items;
     w_parseSecret := fun _ => None;
     w_parseError := fun _ => SyntaxError;
     w_unlinkAsync := fun _ _ => true;
     w_writeFile := fun _ _ => true;
     w_clipboard := fun _ => true |}.

(** A document with two [serviceEnv] entries of the same name around
    another one, and a [serviceCatalogEnv] entry. *)
Definition crowded_yaml : Yaml :=
  {| y_serviceEnv :=
       Some [ServiceBinding "redis" (VString "redis.default.svc.cluster.local");
             ServiceBinding "web" (VString "web.default.svc.cluster.local");
             ServiceBinding "redis" (VString "redis.other.svc.cluster.local")];
     y_serviceCatalogEnv := Some [ServiceCatalogBinding "foo" (VKeys ["host"])];
     y_others := [] |}.

(* ===================================================================== *)
(** * Properties of the parser                                            *)
(* ===================================================================== *)

Lemma append_cons (c : ascii) (s t : string) : String c s +:+ t = String c (s +:+ t).
Proof. reflexivity. Qed.

Lemma append_empty_l (s : string) : "" +:+ s = s.
Proof. reflexivity. Qed.

Lemma append_empty_r (s : string) : s +:+ "" = s.
Proof.
  induction s as [|c s IH]; [reflexivity | now rewrite append_cons, IH].
Qed.

Lemma append_snoc (s : string) (c : ascii) (t : string) :
  (s +:+ String c "") +:+ t = s +:+ String c t.
Proof.
  induction s as [|d s IH]; [reflexivity | now rewrite !append_cons, IH].
Qed.

Lemma split_nonnil (sep : ascii) (s : string) :
  exists piece pieces, Js.split sep s = piece :: pieces.
Proof.
  induction s as [|c s [p [ps IH]]]; simpl.
  - eauto.
  - destruct (Ascii.eqb c sep); [eauto | rewrite IH; eauto].
Qed.

Lemma lines_from_split (text current : string) :
  exists piece pieces,
    Js.split Js.newline text = piece :: pieces
    /\ TableSpec.lines_from current text = (current +:+ piece) :: pieces.
Proof.
  revert current. induction text as [|c text IH]; intros current; simpl.
  - exists "", []. now rewrite append_empty_r.
  - destruct (Ascii.eqb c Js.newline).
    + destruct (IH "") as (p & ps & Hs & Hl).
      exists "", (p :: ps). rewrite append_empty_r, Hs, Hl. auto.
    + destruct (IH (current +:+ String c "")) as (p & ps & Hs & Hl).
      exists (String c p), ps. rewrite Hs, Hl, append_snoc. auto.
Qed.

Lemma lines_split (text : string) : TableSpec.lines text = Js.split Js.newline text.
Proof.
  unfold TableSpec.lines.
  destruct (lines_from_split text "") as (p & ps & Hs & Hl).
  now rewrite Hs, Hl.
Qed.

Lemma fields_from_split (row current : string) :
  exists piece pieces,
    Js.split Js.space row = piece :: pieces
    /\ TableSpec.fields_from TableSpec.is_blank current row
       = List.filter Js.nonempty ((current +:+ piece) :: pieces).
Proof.
  revert current. induction row as [|c row IH]; intros current; simpl.
  - exists "", []. rewrite append_empty_r. split; [reflexivity|].
    simpl. now destruct (Js.nonempty current).
  - unfold TableSpec.is_blank at 1.
    destruct (Ascii.eqb c Js.space).
    + destruct (IH "") as (p & ps & Hs & Hf). simpl in Hf.
      exists "", (p :: ps). rewrite Hs, append_empty_r. split; [reflexivity|].
      change (List.filter Js.nonempty (current :: p :: ps))
        with (if Js.nonempty current then current :: List.filter Js.nonempty (p :: ps)
              else List.filter Js.nonempty (p :: ps)).
      now rewrite Hf.
    + destruct (IH (current +:+ String c "")) as (p & ps & Hs & Hf).
      exists (String c p), ps. rewrite Hs, Hf, append_snoc. auto.
Qed.

Lemma fields_split (row : string) :
  TableSpec.fields TableSpec.is_blank row = List.filter Js.nonempty (Js.split Js.space row).
Proof.
  unfold TableSpec.fields.
  destruct (fields_from_split row "") as (p & ps & Hs & Hf).
  now rewrite Hs, Hf.
Qed.

Lemma instance_of_line_fields (line : string) :
  instance_of_line line = TableSpec.record_of (TableSpec.fields TableSpec.is_blank line).
Proof. unfold instance_of_line. now rewrite fields_split. Qed.

Lemma cleanUp_loop_spec (rows : list string) :
  forall c acc,
    cleanUp_loop rows c acc
    = (acc ++ List.map instance_of_line rows,
       cache_extend (List.map instance_of_line rows) c).
Proof.
  induction rows as [|row rows IH]; intros c acc; simpl.
  - now rewrite app_nil_r.
  - rewrite IH, <- app_assoc. reflexivity.
Qed.

Lemma cleanUpInstanceResults_spec (results : string) (c : InstanceCache) :
  cleanUpInstanceResults results c
  = (TableSpec.parse TableSpec.is_blank results,
     cache_extend (TableSpec.parse TableSpec.is_blank results) c).
Proof.
  unfold cleanUpInstanceResults, TableSpec.parse, TableSpec.data_rows, Js.slice.
  rewrite cleanUp_loop_spec, lines_split. simpl.
  erewrite map_ext; [reflexivity|]. intros row. apply instance_of_line_fields.
Qed.

(** C3 (as stated): with "whitespace runs" taken to include the tab, the
    parser and the specification disagree on a row whose first two fields
    are separated by a tab: the code keeps them as one field. *)
Lemma parser_claim_fails_on_tab : ~ parser_claim.
Proof.
  intros [Hall _]. specialize (Hall tabbed_table empty_cache).
  vm_compute in Hall. discriminate Hall.
Qed.

(** C3 (amended): for every input text the parser returns, in input order,
    one record per data row (the lines after the first two that are not
    empty), whose fields 0..4 are the maximal runs of characters other than
    the space character U+0020; the scenario table parses to the single
    record foo / default / mysqldb / free / Ready. *)
Theorem parser_splits_on_spaces :
  (forall text c,
      fst (cleanUpInstanceResults text c) = TableSpec.parse TableSpec.is_blank text)
  /\ (forall c, fst (cleanUpInstanceResults scenario_table c) = [scenario_record]).
Proof.
  split.
  - intros text c. now rewrite cleanUpInstanceResults_spec.
  - intros c. rewrite cleanUpInstanceResults_spec. reflexivity.
Qed.

(* ===================================================================== *)
(** * Creating or reusing a binding                                       *)
(* ===================================================================== *)

Ltac run_monad :=
  unfold bind, ret, throw, try_catch, emit, get_trace, get_cache, set_cache,
    set_document, settle, succeed in *; simpl in *.

Lemma indexOf_from_unfold (pat s : string) (i : Z) :
  Js.indexOf_from pat s i
  = if String.prefix pat s then i
    else match s with
         | EmptyString => -1
         | String _ rest => Js.indexOf_from pat rest (i + 1)
         end.
Proof. destruct s; reflexivity. Qed.

Lemma indexOf_from_range (pat s : string) :
  forall i, 0 <= i -> Js.indexOf_from pat s i = -1 \/ i <= Js.indexOf_from pat s i.
Proof.
  induction s as [|c s IH]; intros i Hi; rewrite indexOf_from_unfold.
  - destruct (String.prefix pat ""); lia.
  - destruct (String.prefix pat (String c s)); [lia|].
    destruct (IH (i + 1)) as [H|H]; lia.
Qed.

(** The test [stderr.indexOf(pat)] is falsy exactly when [stderr] starts
    with [pat]. *)
Lemma indexOf_truthy (s pat : string) :
  Js.truthy_num (Js.indexOf s pat) = negb (String.prefix pat s).
Proof.
  unfold Js.truthy_num, Js.indexOf. rewrite indexOf_from_unfold.
  destruct (String.prefix pat s); [reflexivity|].
  destruct s as [|c s]; [reflexivity|].
  change (0 + 1) with 1.
  destruct (indexOf_from_range pat s 1) as [H|H]; [lia | rewrite H; reflexivity |].
  destruct (Js.indexOf_from pat s 1 =? 0) eqn:E; [|reflexivity].
  apply Z.eqb_eq in E. lia.
Qed.

(** C1: what [createOrGetServiceBinding] does on a failing exit of
    [svcat bind]: the error is reported and [null] returned exactly when
    stderr starts with "already exists"; on every other failing exit,
    whatever stderr says, the requested name is returned and nothing is
    reported. *)
Theorem createOrGetServiceBinding_on_failure
    (w : World) (serviceName : option string) (s : Store) (r : ShellResult) :
  w_execCore w (trace s) ("svcat bind " +:+ Js.to_string serviceName) = Resolved r ->
  code r <> 0 ->
  let out := createOrGetServiceBinding w serviceName s in
  if String.prefix "already exists" (stderr r)
  then fst out = Ret BNull
       /\ notices (trace (snd out))
          = EvError ("Could not bind to External Service " +:+ Js.quote
                     +:+ Js.to_string serviceName +:+ Js.quote) :: notices (trace s)
  else fst out = Ret (binding_of serviceName)
       /\ notices (trace (snd out)) = notices (trace s).
Proof.
  intros Hexec Hcode out. subst out.
  unfold createOrGetServiceBinding, execCore. run_monad.
  rewrite Hexec. simpl.
  destruct (code r =? 0) eqn:E; [lia|]. simpl.
  rewrite indexOf_truthy.
  destruct (String.prefix "already exists" (stderr r)); simpl; auto.
Qed.

(** The two failing inputs of C1: a stderr that starts with "already
    exists" yields [null] and an error; a stderr that does not mention an
    existing binding at all yields the requested name. *)
Lemma createOrGetServiceBinding_on_failure_witness :
  (fst (createOrGetServiceBinding
          (demo_world demo_yaml (Some "foo") (Resolved (failed_result "already exists")) Rejected)
          (Some "foo") initial_store) = Ret BNull)
  /\ (fst (createOrGetServiceBinding
             (demo_world demo_yaml (Some "foo") (Resolved (failed_result "connection refused"))
                         Rejected)
             (Some "foo") initial_store) = Ret (BString "foo")).
Proof.
  split.
  - apply (createOrGetServiceBinding_on_failure
             (demo_world demo_yaml (Some "foo") (Resolved (failed_result "already exists"))
                         Rejected)
             (Some "foo") initial_store (failed_result "already exists"));
      [reflexivity | simpl; lia].
  - apply (createOrGetServiceBinding_on_failure
             (demo_world demo_yaml (Some "foo") (Resolved (failed_result "connection refused"))
                         Rejected)
             (Some "foo") initial_store (failed_result "connection refused"));
      [reflexivity | simpl; lia].
Defined.

(* ===================================================================== *)
(** * The document accessor                                               *)
(* ===================================================================== *)

Lemma section_set_same (t : ServiceType) (v : list BindingEntry) (y : Yaml) :
  section t (set_section t v y) = Some v.
Proof. destruct t; reflexivity. Qed.

Lemma section_set_other (t : ServiceType) (v : list BindingEntry) (y : Yaml) :
  section (other_kind t) (set_section t v y) = section (other_kind t) y.
Proof. destruct t; reflexivity. Qed.

Lemma others_set (t : ServiceType) (v : list BindingEntry) (y : Yaml) :
  y_others (set_section t v y) = y_others y.
Proof. destruct t; reflexivity. Qed.

Lemma push_binding_spec (t : ServiceType) (bindingName : string) (value : SecretValue)
    (y : Yaml) :
  push_binding t bindingName value y
  = set_section t (entries_of (section t y) ++ [entry_of t bindingName value]) y.
Proof.
  destruct t; unfold push_binding; simpl.
  - destruct (y_serviceEnv y); reflexivity.
  - destruct (y_serviceCatalogEnv y); reflexivity.
Qed.

Lemma isBindingAdded_true (t : ServiceType) (X : string) (y : Yaml)
    (entries : list BindingEntry) :
  section t y = Some entries ->
  In X (List.map binding_name entries) ->
  isBindingAdded t X y = true.
Proof.
  intros Hsec Hin. unfold isBindingAdded. rewrite Hsec.
  apply existsb_exists. apply in_map_iff in Hin as (b & Hb & Hin).
  exists b. split; [exact Hin | now apply String.eqb_eq].
Qed.

(** C5: [writeSecretData] leaves in memory a document at the same path
    whose section of the given kind is the former section (nothing, when it
    was absent) followed by the entry of that kind's shape, and whose other
    section and remaining content are unchanged. *)
Theorem writeSecretData_appends_entry
    (w : World) (t : ServiceType) (bindingName : string) (value : SecretValue)
    (chartYaml : ChartYaml) (s : Store) :
  exists doc',
    document (snd (writeSecretData w t bindingName value chartYaml s)) = Some doc'
    /\ path doc' = path chartYaml
    /\ section t (yaml doc')
       = Some (entries_of (section t (yaml chartYaml)) ++ [entry_of t bindingName value])
    /\ section (other_kind t) (yaml doc') = section (other_kind t) (yaml chartYaml)
    /\ y_others (yaml doc') = y_others (yaml chartYaml).
Proof.
  exists {| path := path chartYaml;
            yaml := push_binding t bindingName value (yaml chartYaml) |}.
  split.
  - unfold writeSecretData, unlinkAsync, writeFile. run_monad.
    destruct (w_unlinkAsync w (trace s) (path chartYaml)); simpl; [|reflexivity].
    destruct (w_writeFile w _ (path chartYaml)); reflexivity.
  - simpl. rewrite push_binding_spec.
    rewrite section_set_same, section_set_other, others_set. auto.
Qed.

(** C2: when the loaded document already has a [serviceEnv] entry named
    [X] and [X] is what the prompt returns, [addService] leaves the
    document object as loaded (so the section keeps its entries) and calls
    neither [unlinkAsync] nor [writeFile]. *)
Theorem addService_duplicate_is_noop
    (w : World) (s : Store) (doc : ChartYaml) (entries : list BindingEntry) (X : string) :
  (forall h, w_loadChart w h = Some doc) ->
  (forall h items, w_showQuickPick w h items = Some X) ->
  section serviceEnv (yaml doc) = Some entries ->
  In X (List.map binding_name entries) ->
  let s' := snd (addService w s) in
  document s' = Some doc
  /\ section_of_document serviceEnv s' = Some entries
  /\ persistence_calls (trace s') = persistence_calls (trace s).
Proof.
  intros Hload Hpick Hsec Hin s'.
  assert (Hdoc : document s' = Some doc
                 /\ persistence_calls (trace s') = persistence_calls (trace s)).
  { subst s'. unfold addService, loadChartValues, kubectl_invokeAsync, showQuickPick,
      showInformationMessage.
    run_monad. rewrite Hload. simpl.
    destruct (w_kubectl w _ _) as [|r]; simpl; [auto|].
    destruct (code r =? -1); simpl; [auto|].
    destruct (w_parseServices w (stdout r)) as [items|]; simpl; [|auto].
    destruct (length items =? 0)%nat; simpl; [auto|].
    rewrite Hpick.
    destruct (String.eqb X ""); simpl; [auto|].
    destruct (List.filter _ items) as [|serviceObj rest] eqn:Hfilter; simpl; [auto|].
    assert (Hname : svc_name serviceObj = X).
    { assert (Hmem : In serviceObj (List.filter
                                      (fun service => String.eqb (svc_name service) X) items))
        by (rewrite Hfilter; left; reflexivity).
      apply filter_In in Hmem as [_ Heq]. now apply String.eqb_eq in Heq. }
    rewrite Hname, (isBindingAdded_true serviceEnv X (yaml doc) entries Hsec Hin).
    simpl. auto. }
  destruct Hdoc as [Hd Hp]. unfold section_of_document. rewrite Hd. auto.
Qed.

Lemma addService_duplicate_is_noop_witness :
  let s' := snd (addService (demo_world demo_yaml (Some "redis") Rejected Rejected)
                            initial_store) in
  document s' = Some (demo_chart demo_yaml)
  /\ section_of_document serviceEnv s' = Some [redis_entry]
  /\ persistence_calls (trace s') = persistence_calls (trace initial_store).
Proof.
  apply (addService_duplicate_is_noop
           (demo_world demo_yaml (Some "redis") Rejected Rejected)
           initial_store (demo_chart demo_yaml) [redis_entry] "redis").
  - intros h. reflexivity.
  - intros h items. reflexivity.
  - reflexivity.
  - simpl. left. reflexivity.
Defined.

(* ===================================================================== *)
(** * Removing a binding                                                  *)
(* ===================================================================== *)

Lemma pruned_length (Y : string) (entries : list BindingEntry) :
  (length (List.filter (fun b => negb (String.eqb (binding_name b) Y)) entries)
   + count_named Y entries = length entries)%nat.
Proof.
  unfold count_named.
  induction entries as [|b entries IH]; simpl; [reflexivity|].
  destruct (String.eqb (binding_name b) Y); simpl; lia.
Qed.

Lemma pruned_count (Y : string) (entries : list BindingEntry) :
  count_named Y (List.filter (fun b => negb (String.eqb (binding_name b) Y)) entries)
  = 0%nat.
Proof.
  unfold count_named.
  induction entries as [|b entries IH]; simpl; [reflexivity|].
  destruct (String.eqb (binding_name b) Y) eqn:E; simpl; [exact IH|].
  rewrite E. exact IH.
Qed.

Lemma pruned_same (Y : string) (entries : list BindingEntry) :
  count_named Y entries = 0%nat ->
  List.filter (fun b => negb (String.eqb (binding_name b) Y)) entries = entries.
Proof.
  unfold count_named.
  induction entries as [|b entries IH]; simpl; [reflexivity|].
  destruct (String.eqb (binding_name b) Y); simpl; [discriminate|].
  intros H. now rewrite IH.
Qed.

(** What the removal flow leaves in the section, for a document that has
    the section and a prompt that returns [Y]. *)
Lemma removeServiceBinding_section
    (w : World) (s : Store) (t : ServiceType) (doc : ChartYaml)
    (entries : list BindingEntry) (Y : string) :
  (forall h, w_loadChart w h = Some doc) ->
  section t (yaml doc) = Some entries ->
  (forall h items, w_showQuickPick w h items = Some Y) ->
  section_of_document t (snd (removeServiceBinding w t s))
  = Some (if String.eqb Y "" then entries
          else List.filter (fun b => negb (String.eqb (binding_name b) Y)) entries).
Proof.
  intros Hload Hsec Hpick.
  unfold removeServiceBinding, loadChartValues, showQuickPick, showInformationMessage,
    unlinkAsync, writeFile, section_of_document.
  run_monad. rewrite Hload. simpl. rewrite Hsec.
  destruct entries as [|b entries]; simpl.
  - rewrite Hsec. now destruct (String.eqb Y "").
  - rewrite Hpick. destruct (String.eqb Y ""); simpl.
    + now rewrite Hsec.
    + destruct (w_unlinkAsync w _ (path doc)); simpl.
      * destruct (w_writeFile w _ (path doc)); simpl; now rewrite section_set_same.
      * now rewrite section_set_same.
Qed.

(** C6 (as stated): with the empty name as [Y] the flow takes the
    selection for "no selection" and removes nothing, so a section whose
    one entry is named [Y] keeps its size. *)
Lemma removal_claim_fails_on_empty_name : ~ removal_claim.
Proof.
  intros H.
  destruct (H (demo_world unnamed_yaml (Some "") Rejected Rejected) initial_store
              serviceEnv (demo_chart unnamed_yaml)
              [ServiceBinding "" (VString "x.default.svc.cluster.local")] "")
    as [Hone _]; try reflexivity.
  destruct (Hone eq_refl) as (entries' & Hafter & Hlen & _).
  vm_compute in Hafter. injection Hafter as <-. discriminate Hlen.
Qed.

(** C6 (amended): for a section of size N, a prompt that returns [Y] and
    [Y] not the empty string: if exactly one entry is named [Y] the section
    afterwards has size N-1 and no entry named [Y]; and for every [Y], if no
    entry is named [Y] the section keeps its entries. *)
Theorem removal_of_named_entry
    (w : World) (s : Store) (t : ServiceType) (doc : ChartYaml)
    (entries : list BindingEntry) (Y : string) :
  (forall h, w_loadChart w h = Some doc) ->
  section t (yaml doc) = Some entries ->
  (forall h items, w_showQuickPick w h items = Some Y) ->
  let after := section_of_document t (snd (removeServiceBinding w t s)) in
  (Y <> "" -> count_named Y entries = 1%nat ->
   exists entries', after = Some entries'
                    /\ length entries' = (length entries - 1)%nat
                    /\ count_named Y entries' = 0%nat)
  /\ (count_named Y entries = 0%nat -> after = Some entries).
Proof.
  intros Hload Hsec Hpick after. subst after.
  rewrite (removeServiceBinding_section w s t doc entries Y Hload Hsec Hpick).
  split.
  - intros Hne Hone. apply String.eqb_neq in Hne. rewrite Hne.
    eexists. split; [reflexivity|]. split.
    + pose proof (pruned_length Y entries). lia.
    + apply pruned_count.
  - intros Hnone. destruct (String.eqb Y ""); [reflexivity|].
    now rewrite pruned_same.
Qed.

Lemma removal_of_named_entry_witness :
  let after :=
    section_of_document serviceEnv
      (snd (removeServiceBinding (demo_world demo_yaml (Some "redis") Rejected Rejected)
                                 serviceEnv initial_store)) in
  (exists entries', after = Some entries'
                    /\ length entries' = (length [redis_entry] - 1)%nat
                    /\ count_named "redis" entries' = 0%nat)
  /\ section_of_document serviceCatalogEnv
       (snd (removeServiceBinding
               (demo_world
                  {| y_serviceEnv := None; y_serviceCatalogEnv := Some [];
                     y_others := [] |} (Some "redis") Rejected Rejected)
               serviceCatalogEnv initial_store)) = Some [].
Proof.
  split.
  - apply (removal_of_named_entry
             (demo_world demo_yaml (Some "redis") Rejected Rejected) initial_store
             serviceEnv (demo_chart demo_yaml) [redis_entry] "redis");
      [intros h; reflexivity | reflexivity | intros h items; reflexivity
      | discriminate | reflexivity].
  - apply (removal_of_named_entry
             (demo_world {| y_serviceEnv := None; y_serviceCatalogEnv := Some [];
                            y_others := [] |} (Some "redis") Rejected Rejected)
             initial_store serviceCatalogEnv
             (demo_chart {| y_serviceEnv := None; y_serviceCatalogEnv := Some [];
                            y_others := [] |}) [] "redis");
      [intros h; reflexivity | reflexivity | intros h items; reflexivity | reflexivity].
Defined.

(** C7: on a document in which the section is absent the removal flow
    reads [.length] of [undefined]: it ends in a TypeError right after the
    load, and shows no notice. *)
Theorem removal_absent_section_throws
    (w : World) (s : Store) (t : ServiceType) (doc : ChartYaml) :
  w_loadChart w (trace s) = Some doc ->
  section t (yaml doc) = None ->
  let out := removeServiceBinding w t s in
  fst out = Throw TypeError
  /\ notices (trace (snd out)) = notices (trace s)
  /\ trace (snd out) = EvPickChart :: trace s.
Proof.
  intros Hload Hsec out. subst out.
  unfold removeServiceBinding, loadChartValues. run_monad.
  rewrite Hload. simpl. rewrite Hsec. auto.
Qed.

Lemma removal_absent_section_throws_witness :
  let out := removeServiceBinding (demo_world bare_yaml (Some "redis") Rejected Rejected)
                                  serviceEnv initial_store in
  fst out = Throw TypeError
  /\ notices (trace (snd out)) = notices (trace initial_store)
  /\ trace (snd out) = EvPickChart :: trace initial_store.
Proof.
  apply (removal_absent_section_throws
           (demo_world bare_yaml (Some "redis") Rejected Rejected)
           initial_store serviceEnv (demo_chart bare_yaml));
    reflexivity.
Defined.

(* ===================================================================== *)
(** * The instance cache                                                  *)
(* ===================================================================== *)

Lemma cache_extend_array (rows : list ServiceInstance) :
  forall c, ServiceInstanceArray (cache_extend rows c) = ServiceInstanceArray c ++ rows.
Proof.
  induction rows as [|row rows IH]; intros c; simpl.
  - now rewrite app_nil_r.
  - unfold cache_extend in IH. rewrite IH. simpl. now rewrite <- app_assoc.
Qed.

Lemma dom_assign (k : string) (v : ServiceInstance) (m : gmap string ServiceInstance) :
  dom (assign k v m) = if own_key k then {[k]} ∪ dom m else dom m.
Proof.
  unfold assign, own_key. destruct (String.eqb k "__proto__"); simpl;
    [reflexivity | apply dom_insert_L].
Qed.

Lemma own_keys_app (rows1 rows2 : list ServiceInstance) :
  own_keys (rows1 ++ rows2) = own_keys rows1 ++ own_keys rows2.
Proof. unfold own_keys. now rewrite map_app, List.filter_app. Qed.

Lemma cache_add_sync (row : ServiceInstance) (c : InstanceCache) :
  cache_sync c -> cache_sync (cache_add row c).
Proof.
  intros [Hnames Hdom]. split; simpl.
  - now rewrite Hnames, map_app.
  - rewrite dom_assign, Hdom, own_keys_app, list_to_set_app_L.
    unfold own_keys. simpl.
    destruct (own_key (Js.to_string (name row))); simpl.
    + rewrite union_empty_r_L. apply (comm_L (∪)).
    + now rewrite union_empty_r_L.
Qed.

Lemma cache_extend_sync (rows : list ServiceInstance) :
  forall c, cache_sync c -> cache_sync (cache_extend rows c).
Proof.
  induction rows as [|row rows IH]; intros c Hc; simpl; [exact Hc|].
  apply IH. now apply cache_add_sync.
Qed.

Lemma empty_cache_sync : cache_sync empty_cache.
Proof. split; simpl; [reflexivity | apply dom_empty_L]. Qed.

Lemma list_to_set_nil_inv (ks : list string) :
  (list_to_set ks : gset string) = ∅ -> ks = [].
Proof.
  destruct ks as [|k ks]; [reflexivity|]. intros H. exfalso.
  assert (Hin : k ∈ (list_to_set (k :: ks) : gset string))
    by (apply elem_of_list_to_set, list_elem_of_here).
  rewrite H in Hin. exact (not_elem_of_empty _ Hin).
Qed.

(** In a synchronised cache that fails the "already got instances" test no
    record is stored under an own key, and the dictionary is empty. *)
Lemma unfilled_cache_own_keys (c : InstanceCache) :
  cache_sync c -> cache_filled c = false ->
  own_keys (ServiceInstanceArray c) = [] /\ ServiceInstanceMap c = ∅.
Proof.
  intros [Hnames Hdom] Hfilled. unfold cache_filled in Hfilled.
  destruct (ServiceInstanceArray c) as [|row rows] eqn:Harr.
  - split; [reflexivity|]. apply dom_empty_inv_L. now rewrite Hdom.
  - rewrite Hnames in Hfilled. simpl in Hfilled.
    destruct (size (ServiceInstanceMap c)) eqn:Hsize; [|discriminate].
    apply map_size_empty_iff in Hsize. split; [|exact Hsize].
    apply list_to_set_nil_inv. now rewrite <- Hdom, Hsize, dom_empty_L.
Qed.

Lemma own_keys_nil_proto_free (rows : list ServiceInstance) :
  own_keys rows = [] -> proto_free rows -> rows = [].
Proof.
  destruct rows as [|row rows]; [reflexivity|].
  intros Hkeys Hfree. apply Forall_inv in Hfree.
  unfold own_keys in Hkeys. simpl in Hkeys. rewrite Hfree in Hkeys. discriminate.
Qed.

(** In a synchronised cache without a [__proto__] record that fails the
    "already got instances" test the record list is empty as well. *)
Lemma unfilled_cache_has_no_records (c : InstanceCache) :
  cache_sync c -> proto_free (ServiceInstanceArray c) -> cache_filled c = false ->
  ServiceInstanceArray c = [].
Proof.
  intros Hsync Hfree Hfilled.
  destruct (unfilled_cache_own_keys c Hsync Hfilled) as [Hkeys _].
  now apply own_keys_nil_proto_free.
Qed.

Lemma getServiceInstances_cached (w : World) (s : Store) :
  cache_filled (cache s) = true ->
  getServiceInstances w s = (Ret (Some (ServiceInstanceArray (cache s))), s).
Proof.
  intros H. unfold getServiceInstances. run_monad. now rewrite H.
Qed.

(** What one call leaves behind: the store moves only by a discovery, which
    extends the cache by the parsed rows and returns them. *)
Lemma getServiceInstances_cases (w : World) (s : Store) :
  let out := getServiceInstances w s in
  (cache_filled (cache s) = true /\ out = (Ret (Some (ServiceInstanceArray (cache s))), s))
  \/ (cache_filled (cache s) = false
      /\ lookup_fails (w_execCore w (trace s) "svcat get instances") = true
      /\ cache (snd out) = cache s /\ quiet s (snd out)
      /\ fst out = Ret None)
  \/ (cache_filled (cache s) = false
      /\ exists rows, fst out = Ret (Some rows)
                      /\ cache (snd out) = cache_extend rows (cache s)
                      /\ quiet s (snd out)
                      /\ notices (trace (snd out)) = notices (trace s)
                      /\ discovery_calls (trace (snd out)) = S (discovery_calls (trace s))).
Proof.
  intros out. subst out. unfold quiet.
  destruct (cache_filled (cache s)) eqn:Hfilled.
  - left. split; [reflexivity|]. now apply getServiceInstances_cached.
  - right. unfold getServiceInstances, execCore, showErrorMessage. run_monad.
    rewrite Hfilled.
    destruct (w_execCore w (trace s) "svcat get instances") as [|r]; simpl.
    + left. auto 7.
    + destruct (code r =? 0); simpl.
      * right. split; [reflexivity|].
        rewrite cleanUpInstanceResults_spec. simpl. eauto 8.
      * left. auto 7.
Qed.

Lemma getServiceInstances_sync (w : World) (s : Store) :
  cache_sync (cache s) -> cache_sync (cache (snd (getServiceInstances w s))).
Proof.
  intros Hs.
  destruct (getServiceInstances_cases w s)
    as [[_ H]|[(_ & _ & H & _)|(_ & rows & _ & H & _)]].
  - now rewrite H.
  - now rewrite H.
  - rewrite H. now apply cache_extend_sync.
Qed.

(** ** The cache invariant along every command *)

Section Stability.

Variable I : Store -> Prop.

Lemma stable_ret {A} (a : A) : stable I (ret a).
Proof. intros s Hs. exact Hs. Qed.

Lemma stable_throw {A} (e : Exn) : stable I (@throw A e).
Proof. intros s Hs. exact Hs. Qed.

Lemma stable_bind {A B} (m : M A) (k : A -> M B) :
  stable I m -> (forall a, stable I (k a)) -> stable I (bind m k).
Proof.
  intros Hm Hk s Hs. unfold bind. specialize (Hm s Hs).
  destruct (m s) as [[a|e] s1]; simpl in *; [now apply Hk | exact Hm].
Qed.

Lemma stable_try_catch {A} (m handler : M A) :
  stable I m -> stable I handler -> stable I (try_catch m handler).
Proof.
  intros Hm Hh s Hs. unfold try_catch. specialize (Hm s Hs).
  destruct (m s) as [[a|e] s1]; simpl in *; [exact Hm | now apply Hh].
Qed.

End Stability.

Lemma synced_emit (e : Event) : stable synced (emit e).
Proof. intros s Hs. exact Hs. Qed.

Lemma synced_get_trace : stable synced get_trace.
Proof. intros s Hs. exact Hs. Qed.

Lemma synced_get_cache : stable synced get_cache.
Proof. intros s Hs. exact Hs. Qed.

Lemma synced_set_document (d : ChartYaml) : stable synced (set_document d).
Proof. intros s Hs. exact Hs. Qed.

Lemma synced_getServiceInstances (w : World) : stable synced (getServiceInstances w).
Proof. intros s Hs. now apply getServiceInstances_sync. Qed.

Lemma synced_succeed (ok : bool) : stable synced (succeed ok).
Proof. destruct ok; intros s Hs; exact Hs. Qed.

Lemma synced_settle (o : ExecOutcome) : stable synced (settle o).
Proof. destruct o; intros s Hs; exact Hs. Qed.

Ltac stable_step :=
  first
    [ apply synced_succeed | apply synced_settle | apply stable_ret | apply stable_throw | apply synced_emit | apply synced_get_trace
    | apply synced_get_cache | apply synced_set_document | apply synced_getServiceInstances
    | apply stable_bind; [|intros ?] | apply stable_try_catch
    | match goal with
      | |- stable _ (match ?x with _ => _ end) => destruct x
      end ].

Ltac stable_auto := repeat stable_step.

Lemma synced_writeSecretData (w : World) t bindingName value chartYaml :
  stable synced (writeSecretData w t bindingName value chartYaml).
Proof.
  unfold writeSecretData, unlinkAsync, writeFile. stable_auto.
Qed.

Lemma synced_writeUsageToClipboard (w : World) t bindingName secretKeys :
  stable synced (writeUsageToClipboard w t bindingName secretKeys).
Proof.
  unfold writeUsageToClipboard, clipboardy_write, showInformationMessage.
  stable_auto.
Qed.

Lemma synced_removeServiceBinding (w : World) t : stable synced (removeServiceBinding w t).
Proof.
  unfold removeServiceBinding, loadChartValues, showQuickPick, showInformationMessage,
    unlinkAsync, writeFile.
  stable_auto.
Qed.

Lemma synced_addService (w : World) : stable synced (addService w).
Proof.
  unfold addService, loadChartValues, kubectl_invokeAsync, showQuickPick,
    showInformationMessage.
  stable_auto.
Qed.

Lemma synced_addExternalService (w : World) : stable synced (addExternalService w).
Proof.
  unfold addExternalService, loadChartValues, showQuickPick, createOrGetServiceBinding,
    getSecretData, kubectl_invokeAsync, execCore, showInformationMessage, showErrorMessage.
  stable_auto.
Qed.

Lemma reachable_synced (w : World) (s : Store) : reachable w s -> synced s.
Proof.
  induction 1 as [|s cmd Hreach IH].
  - apply empty_cache_sync.
  - destruct cmd; simpl.
    + now apply synced_addService.
    + now apply synced_removeServiceBinding.
    + now apply synced_addExternalService.
    + now apply synced_removeServiceBinding.
    + now apply synced_getServiceInstances.
Qed.

(** C4: a record named [__proto__] breaks the cache.  The first discovery
    of the process lists only [__proto__]: the name list is filled, the
    dictionary has no own key.  The next call therefore discovers again and
    returns the one row [foo]; the cache now passes the "already got
    instances" test, and the call after that is served from the cache - with
    the two records [__proto__] and [foo], not the sequence the call before
    it returned; the discovery command ran twice in the process. *)
Theorem second_call_differs_after_proto_row :
  let w := proto_world in
  let s := run w CmdGetServiceInstances initial_store in
  let first := getServiceInstances w s in
  let second := getServiceInstances w (snd first) in
  reachable w s
  /\ cache_filled (cache (snd first)) = true
  /\ fst first = Ret (Some [scenario_record])
  /\ fst second = Ret (Some [proto_record; scenario_record])
  /\ trace (snd second) = trace (snd first)
  /\ discovery_calls (trace (snd second)) = 2%nat.
Proof.
  split; [apply reach_run, reach_start|].
  vm_compute. auto 6.
Qed.

(* ===================================================================== *)
(** * The external service-catalog flow                                   *)
(* ===================================================================== *)

(** Both failure modes of the lookup are reported and yield [undefined]. *)
Lemma getSecretData_failure (w : World) (secretName : string) (s : Store) :
  lookup_fails (w_kubectl w (trace s) ("get secret " +:+ secretName +:+ " -o json")) = true ->
  let out := getSecretData w secretName s in
  fst out = Ret None
  /\ cache (snd out) = cache s
  /\ document (snd out) = document s
  /\ persistence_calls (trace (snd out)) = persistence_calls (trace s)
  /\ exists message, notices (trace (snd out)) = EvError message :: notices (trace s).
Proof.
  intros Hfail out. subst out.
  unfold getSecretData, kubectl_invokeAsync, showErrorMessage. run_monad.
  destruct (w_kubectl w (trace s) _) as [|r]; simpl in *.
  - eauto 8.
  - rewrite Hfail. simpl. eauto 8.
Qed.

(** ** Stepping through a flow *)

Lemma bind_ret_eq {A B} (m : M A) (k : A -> M B) (s s' : Store) (a : A) :
  m s = (Ret a, s') -> bind m k s = k a s'.
Proof. intros H. unfold bind. now rewrite H. Qed.

Lemma bind_throw_eq {A B} (m : M A) (k : A -> M B) (s s' : Store) (e : Exn) :
  m s = (Throw e, s') -> bind m k s = (Throw e, s').
Proof. intros H. unfold bind. now rewrite H. Qed.

Ltac step_with H := rewrite (bind_ret_eq _ _ _ _ _ H); cbv beta.
Ltac step := erewrite bind_ret_eq by reflexivity; cbv beta.

Lemma quiet_refl (s : Store) : quiet s s.
Proof. split; reflexivity. Qed.

Lemma quiet_trans (s1 s2 s3 : Store) : quiet s1 s2 -> quiet s2 s3 -> quiet s1 s3.
Proof. intros [H1 H2] [H3 H4]. split; congruence. Qed.

Lemma loadChartValues_ok (w : World) (s : Store) (doc : ChartYaml) :
  w_loadChart w (trace s) = Some doc ->
  loadChartValues w s
  = (Ret doc, {| cache := cache s; document := Some doc; trace := EvPickChart :: trace s |}).
Proof. intros H. unfold loadChartValues. run_monad. now rewrite H. Qed.

(** The lazy population before the prompt never throws and touches neither
    the document nor the file. *)
Lemma populate_cases (w : World) (s : Store) :
  exists s1,
    (if cache_blank (cache s) then (_ <- getServiceInstances w ;; ret tt) else ret tt) s
    = (Ret tt, s1)
    /\ quiet s s1
    /\ (notices (trace s1) = notices (trace s)
        \/ lookup_fails (w_execCore w (trace s) "svcat get instances") = true).
Proof.
  destruct (cache_blank (cache s)).
  - pose proof (getServiceInstances_cases w s) as H. simpl in H.
    destruct (getServiceInstances w s) as [r s1] eqn:Hrun. simpl in H.
    exists s1.
    destruct H as [[_ H]|[(_ & Hf & _ & Hq & Hr)|(_ & rows & Hr & _ & Hq & Hn & _)]].
    + injection H as -> ->. rewrite (bind_ret_eq _ _ _ _ _ Hrun).
      auto using quiet_refl.
    + subst r. rewrite (bind_ret_eq _ _ _ _ _ Hrun). auto.
    + subst r. rewrite (bind_ret_eq _ _ _ _ _ Hrun). auto.
  - exists s. auto using quiet_refl.
Qed.

(** [createOrGetServiceBinding] never throws; it leaves the cache, the
    document and the file alone; a string it returns is the requested
    name. *)
Lemma createOrGetServiceBinding_cases (w : World) (serviceName : option string) (s : Store) :
  exists b s',
    createOrGetServiceBinding w serviceName s = (Ret b, s')
    /\ cache s' = cache s /\ quiet s s'
    /\ (b = binding_of serviceName \/ b = BNull \/ b = BUndefined)
    /\ (lookup_fails (w_execCore w (trace s) ("svcat bind " +:+ Js.to_string serviceName))
        = false ->
        b = binding_of serviceName /\ notices (trace s') = notices (trace s)).
Proof.
  unfold createOrGetServiceBinding, execCore, showErrorMessage, quiet. run_monad.
  destruct (w_execCore w (trace s) _) as [|r]; simpl.
  - do 2 eexists. split; [reflexivity|]. simpl. intuition discriminate.
  - destruct (code r =? 0) eqn:Hcode; simpl.
    + do 2 eexists. split; [reflexivity|]. simpl. auto 8.
    + destruct (Js.truthy_num _); simpl.
      * do 2 eexists. split; [reflexivity|]. simpl. intuition discriminate.
      * do 2 eexists. split; [reflexivity|]. simpl. intuition discriminate.
Qed.

(** C9: when the bind succeeded and the secret lookup fails, the flow
    shows the error and persists nothing, but it does not end there: it goes
    on to [Object.keys(undefined)] and the TypeError leaves
    [addExternalService]. *)
Theorem secret_lookup_failure_escapes
    (w : World) (s : Store) (doc : ChartYaml) (selected : string) (bound : ShellResult) :
  (forall h, w_loadChart w h = Some doc) ->
  (forall h items, w_showQuickPick w h items = Some selected) ->
  Js.nonempty selected = true ->
  (forall h command, w_execCore w h command = Resolved bound) ->
  code bound = 0 ->
  isBindingAdded serviceCatalogEnv selected (yaml doc) = false ->
  (forall h, lookup_fails
               (w_kubectl w h ("get secret " +:+ selected +:+ " -o json")) = true) ->
  let out := addExternalService w s in
  fst out = Throw TypeError
  /\ (exists message, notices (trace (snd out)) = EvError message :: notices (trace s))
  /\ persistence_calls (trace (snd out)) = persistence_calls (trace s)
  /\ document (snd out) = Some doc.
Proof.
  intros Hload Hpick Hname Hexec Hcode Hnew Hfail out. subst out.
  assert (Hok : forall h command, lookup_fails (w_execCore w h command) = false).
  { intros h command. rewrite Hexec. simpl. now rewrite Hcode. }
  unfold addExternalService.
  step_with (loadChartValues_ok w s doc (Hload _)). step.
  destruct (populate_cases w {| cache := cache s; document := Some doc;
                                trace := EvPickChart :: trace s |})
    as (s1 & Hrun & [Hd1 Hp1] & Hn1).
  destruct Hn1 as [Hn1|Hn1]; [|simpl in Hn1; rewrite Hok in Hn1; discriminate].
  simpl in Hrun, Hd1, Hp1, Hn1.
  step_with Hrun. step. step. rewrite Hpick.
  match goal with
  | |- context [bind (createOrGetServiceBinding w (Some selected)) _ ?st] =>
      destruct (createOrGetServiceBinding_cases w (Some selected) st)
        as (b & s3 & Hbind & _ & [Hd3 Hp3] & _ & Hb)
  end.
  destruct (Hb (Hok _ _)) as [-> Hn3]. simpl in Hd3, Hp3, Hn3.
  step_with Hbind. simpl. rewrite Hname. simpl. rewrite Hnew.
  destruct (getSecretData_failure w selected s3 (Hfail _))
    as (Hret & _ & Hd4 & Hp4 & message & Hn4).
  destruct (getSecretData w selected s3) as [res s4] eqn:Hsecret.
  simpl in Hret, Hd4, Hp4, Hn4. subst res.
  step_with Hsecret. simpl.
  split; [reflexivity|]. split; [exists message|split]; congruence.
Qed.

Lemma secret_lookup_failure_escapes_witness :
  let out := addExternalService
               (demo_world demo_yaml (Some "foo") (Resolved (ok_result scenario_table))
                           (Resolved (failed_result "secrets foo not found")))
               initial_store in
  fst out = Throw TypeError
  /\ (exists message, notices (trace (snd out)) = EvError message :: notices (trace initial_store))
  /\ persistence_calls (trace (snd out)) = persistence_calls (trace initial_store)
  /\ document (snd out) = Some (demo_chart demo_yaml).
Proof.
  apply (secret_lookup_failure_escapes
           (demo_world demo_yaml (Some "foo") (Resolved (ok_result scenario_table))
                       (Resolved (failed_result "secrets foo not found")))
           initial_store (demo_chart demo_yaml) "foo" (ok_result scenario_table)).
  - intros h. reflexivity.
  - intros h items. reflexivity.
  - reflexivity.
  - intros h command. simpl. destruct (String.eqb command "svcat get instances"); reflexivity.
  - reflexivity.
  - reflexivity.
  - intros h. reflexivity.
Defined.

(** ** Steps that leave the document and the file alone *)

Section Quiet.

Variable base : Store.

Lemma quiet_emit (e : Event) :
  is_persistence e = false -> stable (quiet base) (emit e).
Proof.
  intros He s [Hd Hp]. split; simpl; [exact Hd|].
  unfold persistence_calls in *. simpl. now rewrite He.
Qed.

Lemma quiet_get_trace : stable (quiet base) get_trace.
Proof. intros s Hs. exact Hs. Qed.

Lemma quiet_succeed (ok : bool) : stable (quiet base) (succeed ok).
Proof. destruct ok; intros s Hs; exact Hs. Qed.

Lemma quiet_settle (o : ExecOutcome) : stable (quiet base) (settle o).
Proof. destruct o; intros s Hs; exact Hs. Qed.

End Quiet.

Ltac quiet_step :=
  first
    [ apply quiet_succeed | apply quiet_settle | apply stable_ret | apply stable_throw
    | apply quiet_get_trace | apply quiet_emit; reflexivity
    | apply stable_bind; [|intros ?] | apply stable_try_catch
    | match goal with
      | |- stable _ (match ?x with _ => _ end) => destruct x
      end ].

Lemma quiet_getSecretData (w : World) (base : Store) (secretName : string) :
  stable (quiet base) (getSecretData w secretName).
Proof.
  unfold getSecretData, kubectl_invokeAsync, showErrorMessage. repeat quiet_step.
Qed.

Lemma quiet_writeUsageToClipboard (w : World) (base : Store) t bindingName secretKeys :
  stable (quiet base) (writeUsageToClipboard w t bindingName secretKeys).
Proof.
  unfold writeUsageToClipboard, clipboardy_write, showInformationMessage.
  repeat quiet_step.
Qed.

(** The persistence of [writeSecretData]: the document object is replaced
    by the extended one, the file is unlinked and, unless that failed,
    written with the extended content. *)
Lemma writeSecretData_persists
    (w : World) (t : ServiceType) (bindingName : string) (value : SecretValue)
    (chartYaml : ChartYaml) (s : Store) :
  let y := push_binding t bindingName value (yaml chartYaml) in
  let out := writeSecretData w t bindingName value chartYaml s in
  document (snd out) = Some {| path := path chartYaml; yaml := y |}
  /\ exists written,
      persistence_calls (trace (snd out))
      = written ++ EvUnlink (path chartYaml) :: persistence_calls (trace s)
      /\ (written = [] \/ written = [EvWriteFile (path chartYaml) y]).
Proof.
  intros y out. subst y out.
  unfold writeSecretData, unlinkAsync, writeFile. run_monad.
  destruct (w_unlinkAsync w (trace s) (path chartYaml)); simpl.
  - destruct (w_writeFile w _ (path chartYaml)); simpl;
      (split; [reflexivity|]; eexists [_]; split; [reflexivity | auto]).
  - split; [reflexivity|]. exists []. auto.
Qed.

(** ** Steps that do not prompt *)

Lemma unprompted_refl (s : Store) : unprompted s s.
Proof. exists []. auto. Qed.

Lemma unprompted_emit (base : Store) (e : Event) :
  is_prompt e = false -> stable (unprompted base) (emit e).
Proof.
  intros He s (mid & Ht & Hmid). exists (e :: mid). unfold emit. cbn [snd trace].
  rewrite Ht. split; [reflexivity|]. unfold prompts in *. simpl. now rewrite He.
Qed.

Lemma unprompted_get_trace (base : Store) : stable (unprompted base) get_trace.
Proof. intros s Hs. exact Hs. Qed.

Lemma unprompted_get_cache (base : Store) : stable (unprompted base) get_cache.
Proof. intros s Hs. exact Hs. Qed.

Lemma unprompted_set_cache (base : Store) (c : InstanceCache) :
  stable (unprompted base) (set_cache c).
Proof. intros s Hs. exact Hs. Qed.

Lemma unprompted_set_document (base : Store) (d : ChartYaml) :
  stable (unprompted base) (set_document d).
Proof. intros s Hs. exact Hs. Qed.

Lemma unprompted_succeed (base : Store) (ok : bool) : stable (unprompted base) (succeed ok).
Proof. destruct ok; intros s Hs; exact Hs. Qed.

Lemma unprompted_settle (base : Store) (o : ExecOutcome) :
  stable (unprompted base) (settle o).
Proof. destruct o; intros s Hs; exact Hs. Qed.

Ltac unprompted_step :=
  first
    [ apply unprompted_succeed | apply unprompted_settle | apply stable_ret
    | apply stable_throw | apply unprompted_emit; reflexivity | apply unprompted_get_trace
    | apply unprompted_get_cache | apply unprompted_set_cache
    | apply unprompted_set_document
    | apply stable_bind; [|intros ?] | apply stable_try_catch
    | match goal with
      | |- stable _ (match ?x with _ => _ end) => destruct x
      end ].

Lemma unprompted_populate (w : World) (base : Store) (c : InstanceCache) :
  stable (unprompted base) (populate w c).
Proof.
  unfold populate, getServiceInstances, execCore, showErrorMessage.
  repeat unprompted_step.
Qed.

(** What a run of the external flow leaves of the document and the file:
    nothing, or the entry named after the answer the prompt gave when the
    cache had been populated. *)
Lemma addExternalService_outcome (w : World) (s : Store) (doc : ChartYaml) :
  w_loadChart w (trace s) = Some doc ->
  let s' := snd (addExternalService w s) in
  (document s' = Some doc
   /\ persistence_calls (trace s') = persistence_calls (trace s))
  \/ exists selected keys written s1,
      populate w (cache s) (loaded doc s) = (Ret tt, s1)
      /\ w_showQuickPick w (trace s1) (ServiceInstanceNames (cache s1)) = Some selected
      /\ let y := push_binding serviceCatalogEnv selected (VKeys keys) (yaml doc) in
         document s' = Some {| path := path doc; yaml := y |}
         /\ persistence_calls (trace s')
            = written ++ EvUnlink (path doc) :: persistence_calls (trace s)
         /\ (written = [] \/ written = [EvWriteFile (path doc) y]).
Proof.
  intros Hload. unfold addExternalService.
  step_with (loadChartValues_ok w s doc Hload). step.
  set (s0 := {| cache := cache s; document := Some doc; trace := EvPickChart :: trace s |}).
  assert (Hq0 : quiet s0 s0) by apply quiet_refl.
  destruct (populate_cases w s0) as (s1 & Hrun & Hq1 & _).
  change (cache s0) with (cache s) in Hrun.
  step_with Hrun. step. step.
  remember (w_showQuickPick w (trace s1) (ServiceInstanceNames (cache s1)))
    as picked eqn:Hpicked.
  match goal with
  | |- context [bind (createOrGetServiceBinding w picked) _ ?st] =>
      destruct (createOrGetServiceBinding_cases w picked st)
        as (b & s3 & Hbind & _ & Hq3 & Hb & _);
      assert (Hq2 : quiet s1 st) by (split; reflexivity)
  end.
  step_with Hbind.
  assert (Hquiet3 : quiet s0 s3) by eauto using quiet_trans.
  destruct (truthy b) eqn:Htruthy; cbn [negb]; [|left; exact Hquiet3].
  destruct b as [| |b]; try discriminate Htruthy.
  destruct Hb as [Hb|[Hb|Hb]]; try discriminate Hb.
  destruct (isBindingAdded serviceCatalogEnv b (yaml doc)); [left; exact Hquiet3|].
  pose proof (quiet_getSecretData w s0 b s3 Hquiet3) as Hq4.
  destruct (getSecretData w b s3) as [[[keys|]|e] s4] eqn:Hsecret; cbn [snd] in Hq4.
  + step_with Hsecret. right.
    destruct (writeSecretData_persists w serviceCatalogEnv b (VKeys keys) doc s4)
      as (Hdoc & written & Hper & Hwritten).
    exists b, keys, written, s1.
    split; [exact Hrun|].
    split; [rewrite <- Hpicked; destruct picked as [n|]; unfold binding_of in Hb;
            [injection Hb as ->; reflexivity | discriminate Hb]|].
    destruct Hq4 as [_ Hp4]. cbn [trace s0] in Hp4.
    change (persistence_calls (EvPickChart :: trace s))
      with (persistence_calls (trace s)) in Hp4.
    rewrite Hp4 in Hper.
    destruct (writeSecretData w serviceCatalogEnv b (VKeys keys) doc s4)
      as [[[]|e] s5] eqn:Hwrite; cbn [snd] in Hdoc, Hper.
    * step_with Hwrite.
      match goal with
      | |- context [snd (bind ?m ?k s5)] =>
          assert (Hrest : stable (quiet s5) (bind m k))
            by (apply stable_bind;
                [apply quiet_writeUsageToClipboard
                |intros ?; apply quiet_emit; reflexivity]);
          destruct (Hrest s5 (quiet_refl s5)) as [Hd6 Hp6]
      end.
      cbv zeta. rewrite Hd6, Hp6. auto.
    * rewrite (bind_throw_eq _ _ _ _ _ Hwrite). cbn [snd]. auto.
  + step_with Hsecret. left. exact Hq4.
  + rewrite (bind_throw_eq _ _ _ _ _ Hsecret). left. exact Hq4.
Qed.

(** The log of a run of the external flow that got past the population of
    the cache: one prompt, offering the cached names, with no other prompt
    before or after it. *)
Lemma addExternalService_log (w : World) (s s1 : Store) (doc : ChartYaml) :
  w_loadChart w (trace s) = Some doc ->
  populate w (cache s) (loaded doc s) = (Ret tt, s1) ->
  exists mid post,
    trace s1 = mid ++ trace s
    /\ prompts mid = []
    /\ prompts post = []
    /\ trace (snd (addExternalService w s))
       = post ++ EvQuickPick (ServiceInstanceNames (cache s1))
                   "Pick an External Service to add to the selected application"
              :: trace s1.
Proof.
  intros Hload Hrun.
  destruct (unprompted_populate w (loaded doc s) (cache s) (loaded doc s)
              (unprompted_refl _)) as (mid0 & Hmid0 & Hp0).
  rewrite Hrun in Hmid0. cbn [snd loaded trace] in Hmid0.
  exists (mid0 ++ [EvPickChart]).
  unfold addExternalService.
  step_with (loadChartValues_ok w s doc Hload). step.
  unfold populate, loaded in Hrun. step_with Hrun. step. step.
  match goal with
  | |- context [snd (bind ?m ?k ?st)] =>
      assert (Hrest : stable (unprompted st) (bind m k))
        by (unfold createOrGetServiceBinding, getSecretData, kubectl_invokeAsync, execCore,
              showInformationMessage, showErrorMessage, writeSecretData,
              writeUsageToClipboard, unlinkAsync, writeFile, clipboardy_write;
            repeat unprompted_step);
      destruct (Hrest st (unprompted_refl st)) as (post & Hpost & Hpp)
  end.
  exists post. rewrite Hpost. cbn [trace].
  split; [now rewrite Hmid0, <- app_assoc|].
  split; [unfold prompts in *; now rewrite List.filter_app, Hp0|].
  auto.
Qed.

(** C10: a string that [createOrGetServiceBinding] resolves to is the name
    it was asked to bind; and a run of [addExternalService] either leaves
    the loaded document and the file as they were, or it prompted exactly
    once, that prompt - made when the log was [mid ++ trace s], offering
    [items] - was answered with a name [selected], and the one change to
    the document - the only content ever written to the file - is a
    [serviceCatalogEnv] entry named [selected]. *)
Theorem persisted_binding_named_after_selection
    (w : World) (s : Store) (doc : ChartYaml) :
  w_loadChart w (trace s) = Some doc ->
  (forall serviceName st b,
      fst (createOrGetServiceBinding w serviceName st) = Ret (BString b) ->
      serviceName = Some b)
  /\ (let s' := snd (addExternalService w s) in
      (document s' = Some doc
       /\ persistence_calls (trace s') = persistence_calls (trace s))
      \/ exists selected keys items mid post written,
          trace s'
          = post ++ EvQuickPick items
                      "Pick an External Service to add to the selected application"
                 :: mid ++ trace s
          /\ prompts mid = []
          /\ prompts post = []
          /\ w_showQuickPick w (mid ++ trace s) items = Some selected
          /\ let y := push_binding serviceCatalogEnv selected (VKeys keys) (yaml doc) in
             document s' = Some {| path := path doc; yaml := y |}
             /\ persistence_calls (trace s')
                = written ++ EvUnlink (path doc) :: persistence_calls (trace s)
             /\ (written = [] \/ written = [EvWriteFile (path doc) y])).
Proof.
  intros Hload. split.
  - intros serviceName st b Hret.
    destruct (createOrGetServiceBinding_cases w serviceName st)
      as (b' & s' & Hrun & _ & _ & Hb & _).
    rewrite Hrun in Hret. simpl in Hret. injection Hret as ->.
    destruct Hb as [Hb|[Hb|Hb]]; try discriminate.
    destruct serviceName as [n|]; unfold binding_of in Hb;
      [injection Hb as ->; reflexivity | discriminate Hb].
  - destruct (addExternalService_outcome w s doc Hload)
      as [Hsame|(selected & keys & written & s1 & Hrun & Hpick & Hrest)];
      [left; exact Hsame|].
    right.
    destruct (addExternalService_log w s s1 doc Hload Hrun)
      as (mid & post & Hmid & Hpm & Hpp & Htrace).
    exists selected, keys, (ServiceInstanceNames (cache s1)), mid, post, written.
    rewrite <- Hmid. auto.
Qed.

Lemma persisted_binding_named_after_selection_witness :
  let w := demo_world demo_yaml (Some "foo") (Resolved (ok_result ""))
                      (Resolved (ok_result "{data}")) in
  (forall serviceName st b,
      fst (createOrGetServiceBinding w serviceName st) = Ret (BString b) ->
      serviceName = Some b)
  /\ (let s' := snd (addExternalService w initial_store) in
      (document s' = Some (demo_chart demo_yaml)
       /\ persistence_calls (trace s') = persistence_calls (trace initial_store))
      \/ exists selected keys items mid post written,
          trace s'
          = post ++ EvQuickPick items
                      "Pick an External Service to add to the selected application"
                 :: mid ++ trace initial_store
          /\ prompts mid = []
          /\ prompts post = []
          /\ w_showQuickPick w (mid ++ trace initial_store) items = Some selected
          /\ let y := push_binding serviceCatalogEnv selected (VKeys keys) demo_yaml in
             document s' = Some {| path := path (demo_chart demo_yaml); yaml := y |}
             /\ persistence_calls (trace s')
                = written ++ EvUnlink (path (demo_chart demo_yaml))
                          :: persistence_calls (trace initial_store)
             /\ (written = [] \/ written = [EvWriteFile (path (demo_chart demo_yaml)) y])).
Proof.
  intros w.
  apply (persisted_binding_named_after_selection w initial_store (demo_chart demo_yaml)).
  reflexivity.
Defined.

(** The external flow on the concrete cluster: the entry written is named
    after the selected instance and lists the secret's keys. *)
Example addExternalService_binds_foo :
  let w := demo_world demo_yaml (Some "foo") (Resolved (ok_result ""))
                      (Resolved (ok_result "{data}")) in
  let out := addExternalService w initial_store in
  fst out = Ret tt
  /\ section_of_document serviceCatalogEnv (snd out)
     = Some [ServiceCatalogBinding "foo" (VKeys ["host"; "password"])]
  /\ section_of_document serviceEnv (snd out) = Some [redis_entry].
Proof. vm_compute. auto. Qed.

(** The in-cluster flow on the concrete cluster: [redis] in [default] is
    recorded under its DNS name. *)
Example addService_binds_redis :
  let w := demo_world bare_yaml (Some "redis") Rejected Rejected in
  let out := addService w initial_store in
  fst out = Ret tt
  /\ section_of_document serviceEnv (snd out)
     = Some [ServiceBinding "redis" (VString "redis.default.svc.cluster.local")].
Proof. vm_compute. auto. Qed.

(* ===================================================================== *)
(** * A dismissed prompt                                                  *)
(* ===================================================================== *)

(** C8: what the three flows do when the prompt is dismissed
    ([undefined]).  Removal returns without a notice.  [addService] reads
    [.name] of [undefined] and ends in a TypeError.  [addExternalService]
    runs [svcat bind undefined]; when that cannot be run it shows an error
    notice.  In both add flows the document and the file stay as loaded. *)
Theorem dismissed_prompt_outcomes :
  let w := demo_world demo_yaml None Rejected Rejected in
  let removal := removeServiceBinding w serviceEnv initial_store in
  let add := addService w initial_store in
  let external := addExternalService w initial_store in
  (fst removal = Ret tt /\ notices (trace (snd removal)) = []
   /\ document (snd removal) = Some (demo_chart demo_yaml))
  /\ (fst add = Throw TypeError
      /\ document (snd add) = Some (demo_chart demo_yaml)
      /\ persistence_calls (trace (snd add)) = [])
  /\ (fst external = Ret tt
      /\ In (EvExec "svcat bind undefined") (trace (snd external))
      /\ notices (trace (snd external))
         = [EvError ("Error binding to External Service " +:+ Js.quote
                     +:+ "undefined" +:+ Js.quote)]
      /\ document (snd external) = Some (demo_chart demo_yaml)
      /\ persistence_calls (trace (snd external)) = []).
Proof. vm_compute. intuition. Qed.

(* ===================================================================== *)
(** * Further properties of the parser                                    *)
(* ===================================================================== *)

Lemma cache_extend_names (rows : list ServiceInstance) :
  forall c, ServiceInstanceNames (cache_extend rows c)
            = ServiceInstanceNames c ++ List.map name rows.
Proof.
  induction rows as [|row rows IH]; intros c; simpl.
  - now rewrite app_nil_r.
  - unfold cache_extend in IH. rewrite IH. simpl. now rewrite <- app_assoc.
Qed.

Lemma cache_extend_dom (rows : list ServiceInstance) :
  forall c, dom (ServiceInstanceMap (cache_extend rows c))
            = dom (ServiceInstanceMap c) ∪ list_to_set (own_keys rows).
Proof.
  induction rows as [|row rows IH]; intros c.
  - simpl. now rewrite union_empty_r_L.
  - change (cache_extend (row :: rows) c) with (cache_extend rows (cache_add row c)).
    rewrite IH. simpl. rewrite dom_assign.
    change (own_keys (row :: rows)) with (own_keys ([row] ++ rows)).
    rewrite own_keys_app, list_to_set_app_L. unfold own_keys at 2. simpl.
    destruct (own_key (Js.to_string (name row))); simpl.
    + rewrite union_empty_r_L.
      rewrite (comm_L (∪) {[Js.to_string (name row)]} (dom (ServiceInstanceMap c))).
      now rewrite <- (assoc_L (∪)).
    + now rewrite union_empty_l_L.
Qed.

Lemma cache_extend_snoc (rows : list ServiceInstance) (row : ServiceInstance)
    (c : InstanceCache) :
  cache_extend (rows ++ [row]) c = cache_add row (cache_extend rows c).
Proof. unfold cache_extend. now rewrite fold_left_app. Qed.

Lemma last_named_snoc (k : string) (rows : list ServiceInstance) (row : ServiceInstance) :
  last_named k (rows ++ [row])
  = if String.eqb (key_of row) k then Some row else last_named k rows.
Proof. unfold last_named. now rewrite rev_unit. Qed.

Lemma cache_extend_lookup (rows : list ServiceInstance) (c : InstanceCache) (k : string) :
  ServiceInstanceMap (cache_extend rows c) !! k
  = if own_key k
    then match last_named k rows with
         | Some r => Some r
         | None => ServiceInstanceMap c !! k
         end
    else ServiceInstanceMap c !! k.
Proof.
  induction rows as [|row rows IH] using rev_ind.
  - simpl. now destruct (own_key k).
  - rewrite cache_extend_snoc, last_named_snoc. simpl. unfold assign, key_of.
    destruct (String.eqb (Js.to_string (name row)) "__proto__") eqn:Hrow.
    + apply String.eqb_eq in Hrow. rewrite IH. unfold own_key.
      destruct (String.eqb k "__proto__") eqn:Hk; simpl; [reflexivity|].
      rewrite Hrow. rewrite String.eqb_sym, Hk. reflexivity.
    + rewrite lookup_insert.
      destruct (decide (Js.to_string (name row) = k)) as [Heq|Hne].
      * subst k. rewrite String.eqb_refl. unfold own_key. now rewrite Hrow.
      * apply String.eqb_neq in Hne. rewrite Hne. exact IH.
Qed.

(** X1: parsing and caching are one pass: whatever the cache held,
    [cleanUpInstanceResults] appends the returned records to the record
    list and their names to the name list, nothing there being dropped or
    reordered.  The dictionary gains as keys the names of the returned
    records other than [__proto__]; under such a key it holds the last
    returned record of that name, replacing what was cached under it; every
    other entry is kept. *)
Theorem cleanUpInstanceResults_appends_to_cache (results : string) (c : InstanceCache) :
  let rows := fst (cleanUpInstanceResults results c) in
  let c' := snd (cleanUpInstanceResults results c) in
  ServiceInstanceArray c' = ServiceInstanceArray c ++ rows
  /\ ServiceInstanceNames c' = ServiceInstanceNames c ++ List.map name rows
  /\ dom (ServiceInstanceMap c') = dom (ServiceInstanceMap c) ∪ list_to_set (own_keys rows)
  /\ (forall k, ServiceInstanceMap c' !! k
                = if own_key k
                  then match last_named k rows with
                       | Some r => Some r
                       | None => ServiceInstanceMap c !! k
                       end
                  else ServiceInstanceMap c !! k).
Proof.
  rewrite cleanUpInstanceResults_spec. simpl.
  rewrite cache_extend_array, cache_extend_names, cache_extend_dom.
  split; [reflexivity|]. split; [reflexivity|]. split; [reflexivity|].
  intros k. apply cache_extend_lookup.
Qed.

Lemma split_piece_chars (sep c : ascii) (s : string) :
  forall piece, In piece (Js.split sep s) -> occurs c piece = true -> occurs c s = true.
Proof.
  induction s as [|d s IH]; intros piece Hin Hocc; simpl in *.
  - destruct Hin as [<-|[]]. discriminate Hocc.
  - destruct (Ascii.eqb d sep).
    + destruct Hin as [<-|Hin]; [discriminate Hocc|].
      rewrite (IH piece Hin Hocc). apply orb_true_r.
    + destruct (split_nonnil sep s) as (p & ps & Hs). rewrite Hs in *.
      destruct Hin as [<-|Hin].
      * simpl in Hocc. apply orb_true_iff in Hocc as [Hd|Hp].
        -- rewrite Hd. reflexivity.
        -- rewrite (IH p (or_introl eq_refl) Hp). apply orb_true_r.
      * rewrite (IH piece (or_intror Hin) Hocc). apply orb_true_r.
Qed.

Lemma split_piece_no_sep (sep : ascii) (s : string) :
  forall piece, In piece (Js.split sep s) -> occurs sep piece = false.
Proof.
  induction s as [|d s IH]; intros piece Hin; simpl in *.
  - destruct Hin as [<-|[]]. reflexivity.
  - destruct (Ascii.eqb d sep) eqn:Hd.
    + destruct Hin as [<-|Hin]; [reflexivity | now apply IH].
    + destruct (split_nonnil sep s) as (p & ps & Hs). rewrite Hs in *.
      destruct Hin as [<-|Hin].
      * simpl. rewrite Hd. simpl. apply IH. now left.
      * apply IH. now right.
Qed.

Lemma in_skipn {A} (n : nat) (xs : list A) (x : A) : In x (skipn n xs) -> In x xs.
Proof.
  revert xs. induction n as [|n IH]; intros [|y xs] Hin; simpl in *; auto.
Qed.

Lemma column_is_token (line : string) (v : string) :
  In (Some v) (columns (instance_of_line line)) ->
  In v (List.filter Js.nonempty (Js.split Js.space line)).
Proof.
  unfold columns, instance_of_line, Js.at_index.
  intros [H|[H|[H|[H|[H|[]]]]]]; cbn [name namespace class plan status] in H.
  - exact (nth_error_In _ 0 H).
  - exact (nth_error_In _ 1 H).
  - exact (nth_error_In _ 2 H).
  - exact (nth_error_In _ 3 H).
  - exact (nth_error_In _ 4 H).
Qed.

(** X2: every field the parser fills is a real token: it is not the empty
    string and contains neither a space nor a line feed. *)
Theorem parsed_fields_are_tokens
    (results : string) (c : InstanceCache) (row : ServiceInstance) (v : string) :
  In row (fst (cleanUpInstanceResults results c)) ->
  In (Some v) (columns row) ->
  Js.nonempty v = true
  /\ occurs Js.space v = false
  /\ occurs Js.newline v = false.
Proof.
  intros Hrow Hcol.
  rewrite cleanUpInstanceResults_spec in Hrow. simpl in Hrow.
  unfold TableSpec.parse, TableSpec.data_rows in Hrow.
  apply in_map_iff in Hrow as (line & <- & Hline).
  rewrite <- instance_of_line_fields in Hcol.
  apply filter_In in Hline as [Hline _].
  apply in_skipn in Hline. rewrite lines_split in Hline.
  apply column_is_token in Hcol. apply filter_In in Hcol as [Hpiece Hne].
  split; [exact Hne|]. split.
  - now apply (split_piece_no_sep Js.space line).
  - destruct (occurs Js.newline v) eqn:Hocc; [|reflexivity].
    pose proof (split_piece_chars Js.space Js.newline line v Hpiece Hocc) as Hin.
    now rewrite (split_piece_no_sep Js.newline results line Hline) in Hin.
Qed.

Lemma parsed_fields_are_tokens_witness :
  Js.nonempty "mysqldb" = true
  /\ occurs Js.space "mysqldb" = false
  /\ occurs Js.newline "mysqldb" = false.
Proof.
  apply (parsed_fields_are_tokens scenario_table empty_cache scenario_record "mysqldb").
  - vm_compute. left. reflexivity.
  - vm_compute. right. right. left. reflexivity.
Defined.

(* ===================================================================== *)
(** * The cache along the commands                                        *)
(* ===================================================================== *)

Lemma cache_extend_app (rows1 rows2 : list ServiceInstance) (c : InstanceCache) :
  cache_extend (rows1 ++ rows2) c = cache_extend rows2 (cache_extend rows1 c).
Proof. unfold cache_extend. apply fold_left_app. Qed.

Lemma grown_refl (s : Store) : grown s s.
Proof. exists []. reflexivity. Qed.

Lemma grown_same_cache (base s s' : Store) :
  cache s' = cache s -> grown base s -> grown base s'.
Proof. intros Hc [rows Hrows]. exists rows. congruence. Qed.

Lemma grown_emit (base : Store) (e : Event) : stable (grown base) (emit e).
Proof. intros s Hs. exact Hs. Qed.

Lemma grown_get_trace (base : Store) : stable (grown base) get_trace.
Proof. intros s Hs. exact Hs. Qed.

Lemma grown_get_cache (base : Store) : stable (grown base) get_cache.
Proof. intros s Hs. exact Hs. Qed.

Lemma grown_set_document (base : Store) (d : ChartYaml) :
  stable (grown base) (set_document d).
Proof. intros s Hs. exact Hs. Qed.

Lemma grown_succeed (base : Store) (ok : bool) : stable (grown base) (succeed ok).
Proof. destruct ok; intros s Hs; exact Hs. Qed.

Lemma grown_settle (base : Store) (o : ExecOutcome) : stable (grown base) (settle o).
Proof. destruct o; intros s Hs; exact Hs. Qed.

Lemma grown_getServiceInstances (w : World) (base : Store) :
  stable (grown base) (getServiceInstances w).
Proof.
  intros s [rows Hrows].
  destruct (getServiceInstances_cases w s)
    as [[_ H]|[(_ & _ & H & _)|(_ & more & _ & H & _)]].
  - rewrite H. now exists rows.
  - exists rows. congruence.
  - exists (rows ++ more). rewrite H, Hrows. symmetry. apply cache_extend_app.
Qed.

Ltac grown_step :=
  first
    [ apply grown_succeed | apply grown_settle | apply stable_ret | apply stable_throw
    | apply grown_emit | apply grown_get_trace | apply grown_get_cache
    | apply grown_set_document | apply grown_getServiceInstances
    | apply stable_bind; [|intros ?] | apply stable_try_catch
    | match goal with
      | |- stable _ (match ?x with _ => _ end) => destruct x
      end ].

Lemma grown_removeServiceBinding (w : World) (base : Store) t :
  stable (grown base) (removeServiceBinding w t).
Proof.
  unfold removeServiceBinding, loadChartValues, showQuickPick, showInformationMessage,
    unlinkAsync, writeFile.
  repeat grown_step.
Qed.

Lemma grown_addService (w : World) (base : Store) : stable (grown base) (addService w).
Proof.
  unfold addService, loadChartValues, kubectl_invokeAsync, showQuickPick,
    showInformationMessage.
  repeat grown_step.
Qed.

Lemma grown_addExternalService (w : World) (base : Store) :
  stable (grown base) (addExternalService w).
Proof.
  unfold addExternalService, loadChartValues, showQuickPick, createOrGetServiceBinding,
    getSecretData, kubectl_invokeAsync, execCore, showInformationMessage, showErrorMessage.
  repeat grown_step.
Qed.

Lemma run_grows (w : World) (cmd : Command) (s : Store) : grown s (run w cmd s).
Proof.
  destruct cmd; simpl.
  - apply grown_addService, grown_refl.
  - apply grown_removeServiceBinding, grown_refl.
  - apply grown_addExternalService, grown_refl.
  - apply grown_removeServiceBinding, grown_refl.
  - apply grown_getServiceInstances, grown_refl.
Qed.

(** X3: no command ever drops or reorders what the cache holds: after any
    of the exported commands the record list and the name list are the
    former lists with rows appended at the end (none, for the commands that
    do not discover). *)
Theorem commands_only_append_to_cache (w : World) (cmd : Command) (s : Store) :
  exists rows,
    ServiceInstanceArray (cache (run w cmd s)) = ServiceInstanceArray (cache s) ++ rows
    /\ ServiceInstanceNames (cache (run w cmd s))
       = ServiceInstanceNames (cache s) ++ List.map name rows.
Proof.
  destruct (run_grows w cmd s) as [rows Hrows]. exists rows.
  rewrite Hrows, cache_extend_array, cache_extend_names. auto.
Qed.

Lemma cache_add_indexed (row : ServiceInstance) (c : InstanceCache) :
  cache_indexed c -> cache_indexed (cache_add row c).
Proof.
  intros Hc k v. unfold cache_add, assign. simpl.
  assert (Hold : ServiceInstanceMap c !! k = Some v ->
                 In v (ServiceInstanceArray c ++ [row]) /\ key_of v = k).
  { intros Hv. destruct (Hc k v Hv) as [Hin Hkey].
    split; [apply in_or_app; now left | exact Hkey]. }
  destruct (String.eqb (Js.to_string (name row)) "__proto__"); [exact Hold|].
  rewrite lookup_insert.
  destruct (decide (Js.to_string (name row) = k)) as [Hk|Hk]; [|exact Hold].
  intros [= <-]. split; [apply in_or_app; right; now left | exact Hk].
Qed.

Lemma cache_extend_indexed (rows : list ServiceInstance) :
  forall c, cache_indexed c -> cache_indexed (cache_extend rows c).
Proof.
  induction rows as [|row rows IH]; intros c Hc; simpl; [exact Hc|].
  apply IH. now apply cache_add_indexed.
Qed.

Lemma reachable_indexed (w : World) (s : Store) : reachable w s -> cache_indexed (cache s).
Proof.
  induction 1 as [|s cmd Hreach IH].
  - intros k v Hv. simpl in Hv. rewrite lookup_empty in Hv. discriminate.
  - destruct (run_grows w cmd s) as [rows Hrows]. rewrite Hrows.
    now apply cache_extend_indexed.
Qed.

(** X4: in every store the process can reach, the cache views agree as far
    as a plain object allows: the name list is the list of the records'
    names, in order; every record whose name is not [__proto__] has an entry
    in the dictionary under its name; every entry of the dictionary is one
    of the records, stored under its own name; and the dictionary never has
    the key [__proto__]. *)
Theorem reachable_cache_views_agree (w : World) (s : Store) :
  reachable w s ->
  ServiceInstanceNames (cache s) = List.map name (ServiceInstanceArray (cache s))
  /\ (forall r, In r (ServiceInstanceArray (cache s)) ->
                key_of r <> "__proto__" ->
                is_Some (ServiceInstanceMap (cache s) !! key_of r))
  /\ cache_indexed (cache s)
  /\ ServiceInstanceMap (cache s) !! "__proto__" = None.
Proof.
  intros Hreach.
  destruct (reachable_synced w s Hreach) as [Hnames Hdom].
  split; [exact Hnames|]. split; [|split; [now apply (reachable_indexed w)|]].
  - intros r Hr Hkey. apply elem_of_dom. rewrite Hdom.
    apply elem_of_list_to_set, list_elem_of_In. unfold own_keys.
    apply filter_In. split.
    + apply in_map_iff. exists r. auto.
    + unfold own_key. apply String.eqb_neq in Hkey. now rewrite Hkey.
  - apply not_elem_of_dom. rewrite Hdom. intros Hin.
    apply elem_of_list_to_set, list_elem_of_In in Hin.
    unfold own_keys in Hin. apply filter_In in Hin as [_ Hown].
    discriminate Hown.
Qed.

Lemma reachable_cache_views_agree_witness :
  let w := proto_world in
  let s := run w CmdGetServiceInstances (run w CmdGetServiceInstances initial_store) in
  ServiceInstanceNames (cache s) = List.map name (ServiceInstanceArray (cache s))
  /\ (forall r, In r (ServiceInstanceArray (cache s)) ->
                key_of r <> "__proto__" ->
                is_Some (ServiceInstanceMap (cache s) !! key_of r))
  /\ cache_indexed (cache s)
  /\ ServiceInstanceMap (cache s) !! "__proto__" = None.
Proof.
  intros w s.
  apply (reachable_cache_views_agree w s).
  apply reach_run. apply reach_run. apply reach_start.
Defined.

(** ** A filled cache *)

Lemma frozen_refl (s : Store) : frozen s s.
Proof. split; reflexivity. Qed.

Lemma frozen_emit (base : Store) (e : Event) :
  is_discovery e = false -> stable (frozen base) (emit e).
Proof.
  intros He s [Hc Hd]. split; simpl; [exact Hc|].
  unfold discovery_calls in *. simpl. now rewrite He.
Qed.

Lemma frozen_get_trace (base : Store) : stable (frozen base) get_trace.
Proof. intros s Hs. exact Hs. Qed.

Lemma frozen_get_cache (base : Store) : stable (frozen base) get_cache.
Proof. intros s Hs. exact Hs. Qed.

Lemma frozen_set_document (base : Store) (d : ChartYaml) :
  stable (frozen base) (set_document d).
Proof. intros s Hs. exact Hs. Qed.

Lemma frozen_succeed (base : Store) (ok : bool) : stable (frozen base) (succeed ok).
Proof. destruct ok; intros s Hs; exact Hs. Qed.

Lemma frozen_settle (base : Store) (o : ExecOutcome) : stable (frozen base) (settle o).
Proof. destruct o; intros s Hs; exact Hs. Qed.

Lemma frozen_getServiceInstances (w : World) (base : Store) :
  cache_filled (cache base) = true -> stable (frozen base) (getServiceInstances w).
Proof.
  intros Hfilled s [Hc Hd].
  rewrite getServiceInstances_cached by (now rewrite Hc).
  split; assumption.
Qed.

Ltac frozen_step :=
  first
    [ apply frozen_succeed | apply frozen_settle | apply stable_ret | apply stable_throw
    | apply frozen_emit; reflexivity | apply frozen_get_trace | apply frozen_get_cache
    | apply frozen_set_document | apply frozen_getServiceInstances; assumption
    | apply stable_bind; [|intros ?] | apply stable_try_catch
    | match goal with
      | |- stable _ (match ?x with _ => _ end) => destruct x
      end ].

Lemma frozen_removeServiceBinding (w : World) (base : Store) t :
  stable (frozen base) (removeServiceBinding w t).
Proof.
  unfold removeServiceBinding, loadChartValues, showQuickPick, showInformationMessage,
    unlinkAsync, writeFile.
  repeat frozen_step.
Qed.

Lemma frozen_addService (w : World) (base : Store) : stable (frozen base) (addService w).
Proof.
  unfold addService, loadChartValues, kubectl_invokeAsync, showQuickPick,
    showInformationMessage, writeSecretData, writeUsageToClipboard, unlinkAsync,
    writeFile, clipboardy_write.
  repeat frozen_step.
Qed.

Lemma frozen_addExternalService (w : World) (base : Store) :
  cache_filled (cache base) = true -> stable (frozen base) (addExternalService w).
Proof.
  intros Hfilled.
  unfold addExternalService, loadChartValues, showQuickPick, createOrGetServiceBinding,
    getSecretData, kubectl_invokeAsync, execCore, showInformationMessage, showErrorMessage,
    writeSecretData, writeUsageToClipboard, unlinkAsync, writeFile, clipboardy_write.
  repeat frozen_step.
Qed.

(** X5: once the cache passes the "already got instances" test, it stays
    as it is for the rest of the process: no exported command changes any of
    the three cache variables or runs [svcat get instances] again. *)
Theorem filled_cache_is_frozen (w : World) (cmd : Command) (s : Store) :
  cache_filled (cache s) = true ->
  cache (run w cmd s) = cache s
  /\ discovery_calls (trace (run w cmd s)) = discovery_calls (trace s).
Proof.
  intros Hfilled. destruct cmd; simpl.
  - apply frozen_addService, frozen_refl.
  - apply frozen_removeServiceBinding, frozen_refl.
  - apply frozen_addExternalService; [exact Hfilled | apply frozen_refl].
  - apply frozen_removeServiceBinding, frozen_refl.
  - apply frozen_getServiceInstances; [exact Hfilled | apply frozen_refl].
Qed.

Lemma filled_cache_is_frozen_witness :
  let w := demo_world demo_yaml (Some "foo") (Resolved (ok_result ""))
                      (Resolved (ok_result "{data}")) in
  let s := run w CmdGetServiceInstances initial_store in
  cache (run w CmdAddExternalService s) = cache s
  /\ discovery_calls (trace (run w CmdAddExternalService s)) = discovery_calls (trace s).
Proof.
  intros w s.
  apply (filled_cache_is_frozen w CmdAddExternalService s).
  vm_compute. reflexivity.
Defined.

(** X6: when the cache is not filled and [svcat get instances] cannot be
    run or exits non-zero, [getServiceInstances] does not throw: it shows
    the one notice "Error retrieving Service Instances", resolves to
    [undefined], and leaves the cache and the document as they were. *)
Theorem getServiceInstances_failed_discovery (w : World) (s : Store) :
  cache_filled (cache s) = false ->
  lookup_fails (w_execCore w (trace s) "svcat get instances") = true ->
  getServiceInstances w s
  = (Ret None,
     {| cache := cache s; document := document s;
        trace := EvError "Error retrieving Service Instances"
                 :: EvExec "svcat get instances" :: trace s |}).
Proof.
  intros Hfilled Hfail.
  unfold getServiceInstances, execCore, showErrorMessage. run_monad.
  rewrite Hfilled.
  destruct (w_execCore w (trace s) "svcat get instances") as [|r]; simpl in *.
  - reflexivity.
  - rewrite Hfail. reflexivity.
Qed.

Lemma getServiceInstances_failed_discovery_witness :
  getServiceInstances chartless_world_failing initial_store
  = (Ret None,
     {| cache := cache initial_store; document := document initial_store;
        trace := EvError "Error retrieving Service Instances"
                 :: EvExec "svcat get instances" :: trace initial_store |}).
Proof.
  apply (getServiceInstances_failed_discovery chartless_world_failing initial_store);
    reflexivity.
Defined.

Lemma has_own_key_false (rows : list ServiceInstance) :
  has_own_key rows = false -> own_keys rows = [].
Proof.
  unfold has_own_key, own_keys.
  induction rows as [|row rows IH]; simpl; [reflexivity|].
  destruct (own_key (Js.to_string (name row))); simpl; [discriminate | exact IH].
Qed.

Lemma has_own_key_true (rows : list ServiceInstance) :
  has_own_key rows = true -> exists k, In k (own_keys rows).
Proof.
  unfold has_own_key, own_keys.
  induction rows as [|row rows IH]; simpl; [discriminate|].
  destruct (own_key (Js.to_string (name row))) eqn:Hown; simpl.
  - intros _. exists (Js.to_string (name row)). now left.
  - exact IH.
Qed.

Lemma extended_cache_filled (rows : list ServiceInstance) (c : InstanceCache) :
  ServiceInstanceMap c = ∅ ->
  cache_filled (cache_extend rows c) = has_own_key rows.
Proof.
  intros Hempty. unfold cache_filled.
  destruct (has_own_key rows) eqn:Hown.
  - destruct (has_own_key_true rows Hown) as [k Hk].
    assert (Hin : k ∈ dom (ServiceInstanceMap (cache_extend rows c))).
    { rewrite cache_extend_dom. apply elem_of_union_r, elem_of_list_to_set.
      now apply list_elem_of_In. }
    assert (Hsz : size (ServiceInstanceMap (cache_extend rows c)) <> 0%nat).
    { intros Hsize. apply map_size_empty_iff in Hsize.
      rewrite Hsize, dom_empty_L in Hin. exact (not_elem_of_empty _ Hin). }
    assert (Hlen : length (ServiceInstanceNames (cache_extend rows c)) <> 0%nat).
    { rewrite cache_extend_names, length_app, length_map.
      destruct rows as [|row rows]; [destruct Hk | simpl; lia]. }
    apply Nat.eqb_neq in Hsz. apply Nat.eqb_neq in Hlen. now rewrite Hsz, Hlen.
  - assert (Hmap : ServiceInstanceMap (cache_extend rows c) = ∅).
    { apply dom_empty_inv_L.
      rewrite cache_extend_dom, (has_own_key_false rows Hown), Hempty, dom_empty_L.
      simpl. now rewrite union_empty_r_L. }
    rewrite Hmap, map_size_empty. simpl. apply andb_false_r.
Qed.

(** X7: from a store the process can reach whose cache fails the "already
    got instances" test (its records, if any, are all named [__proto__]), a
    successful discovery returns the parsed rows and appends them to the
    record list and their names to the name list.  The cache passes the test
    afterwards if and only if some returned row has a name other than
    [__proto__]: a table of headers only, or of [__proto__] rows only, is
    discovered again by the next call. *)
Theorem first_discovery_populates (w : World) (s : Store) (r : ShellResult) :
  reachable w s ->
  cache_filled (cache s) = false ->
  w_execCore w (trace s) "svcat get instances" = Resolved r ->
  code r = 0 ->
  let rows := fst (cleanUpInstanceResults (stdout r) (cache s)) in
  let out := getServiceInstances w s in
  fst out = Ret (Some rows)
  /\ ServiceInstanceArray (cache (snd out)) = ServiceInstanceArray (cache s) ++ rows
  /\ ServiceInstanceNames (cache (snd out))
     = ServiceInstanceNames (cache s) ++ List.map name rows
  /\ own_keys (ServiceInstanceArray (cache s)) = []
  /\ cache_filled (cache (snd out)) = has_own_key rows.
Proof.
  intros Hreach Hfilled Hexec Hcode rows out.
  pose proof (reachable_synced w s Hreach) as Hsync.
  destruct (unfilled_cache_own_keys (cache s) Hsync Hfilled) as [Hkeys Hmap].
  assert (Hout : out = (Ret (Some rows),
                        {| cache := cache_extend rows (cache s);
                           document := document s;
                           trace := EvExec "svcat get instances" :: trace s |})).
  { subst out rows. unfold getServiceInstances, execCore. run_monad.
    rewrite Hfilled, Hexec. simpl. rewrite Hcode. simpl.
    now rewrite cleanUpInstanceResults_spec. }
  rewrite Hout. cbn [fst snd cache].
  rewrite cache_extend_array, cache_extend_names, (extended_cache_filled rows _ Hmap).
  auto.
Qed.

Lemma first_discovery_populates_witness :
  let w := proto_world in
  let s := run w CmdGetServiceInstances initial_store in
  let rows := fst (cleanUpInstanceResults scenario_table (cache s)) in
  let out := getServiceInstances w s in
  fst out = Ret (Some rows)
  /\ ServiceInstanceArray (cache (snd out)) = ServiceInstanceArray (cache s) ++ rows
  /\ ServiceInstanceNames (cache (snd out))
     = ServiceInstanceNames (cache s) ++ List.map name rows
  /\ own_keys (ServiceInstanceArray (cache s)) = []
  /\ cache_filled (cache (snd out)) = has_own_key rows.
Proof.
  intros w s.
  apply (first_discovery_populates w s (ok_result scenario_table)).
  - apply reach_run, reach_start.
  - vm_compute. reflexivity.
  - vm_compute. reflexivity.
  - reflexivity.
Defined.

(** X8: memoization holds as long as no record is named [__proto__]: from
    any store the process can be in, when the cache passes the "already got
    instances" test at the second of two consecutive calls of
    [getServiceInstances] and none of the cached records is named
    [__proto__], the second call leaves the store (hence the log) as it
    found it, returns the same sequence of records as the first, and the two
    calls together ran the discovery command at most once. *)
Theorem second_call_served_from_cache_of_own_names (w : World) (s : Store) :
  reachable w s ->
  let first := getServiceInstances w s in
  let second := getServiceInstances w (snd first) in
  proto_free (ServiceInstanceArray (cache (snd first))) ->
  cache_filled (cache (snd first)) = true ->
  fst second = fst first
  /\ (exists records, fst second = Ret (Some records))
  /\ snd second = snd first
  /\ (discovery_calls (trace (snd second)) <= S (discovery_calls (trace s)))%nat.
Proof.
  intros Hreach first second Hfree Hfilled. subst second.
  rewrite (getServiceInstances_cached w (snd first) Hfilled). simpl.
  pose proof (reachable_synced w s Hreach) as Hsync.
  subst first.
  destruct (getServiceInstances_cases w s)
    as [[_ H]|[(Hno & _ & Hc & _)|(Hno & rows & Hret & Hc & _ & _ & Hcalls)]].
  - rewrite H. simpl. eauto 6.
  - rewrite Hc in Hfilled. congruence.
  - rewrite Hc, cache_extend_array in Hfree. apply Forall_app in Hfree as [Hfree _].
    rewrite Hret, Hc, Hcalls, cache_extend_array.
    rewrite (unfilled_cache_has_no_records (cache s) Hsync Hfree Hno). simpl. eauto 6.
Qed.

Lemma second_call_served_from_cache_of_own_names_witness :
  let w := demo_world demo_yaml (Some "foo") Rejected Rejected in
  let first := getServiceInstances w (run w CmdAddService initial_store) in
  let second := getServiceInstances w (snd first) in
  fst second = fst first
  /\ (exists records, fst second = Ret (Some records))
  /\ snd second = snd first
  /\ (discovery_calls (trace (snd second))
      <= S (discovery_calls (trace (run w CmdAddService initial_store))))%nat.
Proof.
  intros w.
  apply (second_call_served_from_cache_of_own_names w (run w CmdAddService initial_store)).
  - apply reach_run. apply reach_start.
  - vm_compute. repeat constructor.
  - vm_compute. reflexivity.
Defined.

(* ===================================================================== *)
(** * Further properties of the document accessor                         *)
(* ===================================================================== *)

Lemma isBindingAdded_set_section (t : ServiceType) (X : string) (y : Yaml)
    (entries : list BindingEntry) :
  isBindingAdded t X (set_section t entries y)
  = existsb (fun b => String.eqb (binding_name b) X) entries.
Proof. unfold isBindingAdded. now rewrite section_set_same. Qed.

Lemma isBindingAdded_set_other (t : ServiceType) (X : string) (y : Yaml)
    (entries : list BindingEntry) :
  isBindingAdded (other_kind t) X (set_section t entries y)
  = isBindingAdded (other_kind t) X y.
Proof. unfold isBindingAdded. now rewrite section_set_other. Qed.

Lemma binding_name_entry_of (t : ServiceType) (n : string) (v : SecretValue) :
  binding_name (entry_of t n v) = n.
Proof. destruct t; reflexivity. Qed.

(** X9: what [writeSecretData] writes, [isBindingAdded] finds: in the
    document it leaves in memory the new name is added for its kind, every
    other name of that kind is added exactly if it was before, and the
    answers for the other kind do not change. *)
Theorem written_binding_is_found
    (w : World) (t : ServiceType) (bindingName : string) (value : SecretValue)
    (chartYaml : ChartYaml) (s : Store) :
  exists doc',
    document (snd (writeSecretData w t bindingName value chartYaml s)) = Some doc'
    /\ isBindingAdded t bindingName (yaml doc') = true
    /\ (forall other,
           isBindingAdded t other (yaml doc')
           = (isBindingAdded t other (yaml chartYaml) || String.eqb bindingName other)%bool)
    /\ (forall other,
           isBindingAdded (other_kind t) other (yaml doc')
           = isBindingAdded (other_kind t) other (yaml chartYaml)).
Proof.
  destruct (writeSecretData_persists w t bindingName value chartYaml s) as [Hdoc _].
  eexists. split; [exact Hdoc|]. simpl. rewrite push_binding_spec.
  assert (Hall : forall other,
             isBindingAdded t other
               (set_section t (entries_of (section t (yaml chartYaml))
                               ++ [entry_of t bindingName value]) (yaml chartYaml))
             = (isBindingAdded t other (yaml chartYaml)
                || String.eqb bindingName other)%bool).
  { intros other. rewrite isBindingAdded_set_section, existsb_app.
    cbn [existsb]. rewrite binding_name_entry_of, orb_false_r. unfold isBindingAdded.
    destruct (section t (yaml chartYaml)); reflexivity. }
  split; [|split].
  - rewrite Hall, String.eqb_refl. apply orb_true_r.
  - exact Hall.
  - intros other. apply isBindingAdded_set_other.
Qed.





(** X11: on a section that is present but empty the removal flow shows
    "No Services to remove." and stops there: no prompt, no file operation,
    the document object as loaded. *)
Theorem removal_of_empty_section
    (w : World) (s : Store) (t : ServiceType) (doc : ChartYaml) :
  w_loadChart w (trace s) = Some doc ->
  section t (yaml doc) = Some [] ->
  removeServiceBinding w t s
  = (Ret tt,
     {| cache := cache s; document := Some doc;
        trace := EvInfo "No Services to remove." :: EvPickChart :: trace s |}).
Proof.
  intros Hload Hsec.
  unfold removeServiceBinding, loadChartValues, showInformationMessage. run_monad.
  rewrite Hload. simpl. rewrite Hsec. reflexivity.
Qed.

Lemma removal_of_empty_section_witness :
  let y := {| y_serviceEnv := Some []; y_serviceCatalogEnv := None; y_others := [] |} in
  removeServiceBinding (demo_world y (Some "redis") Rejected Rejected) serviceEnv initial_store
  = (Ret tt,
     {| cache := cache initial_store; document := Some (demo_chart y);
        trace := EvInfo "No Services to remove." :: EvPickChart :: trace initial_store |}).
Proof.
  intros y.
  apply (removal_of_empty_section (demo_world y (Some "redis") Rejected Rejected)
           initial_store serviceEnv (demo_chart y));
    reflexivity.
Defined.

(** X12: when the removal prompt is dismissed or answers the empty string,
    the flow returns without a notice and without touching the file or the
    document; the prompt had offered the names of the section's entries, in
    their order. *)
Theorem removal_without_selection
    (w : World) (s : Store) (t : ServiceType) (doc : ChartYaml)
    (entries : list BindingEntry) :
  w_loadChart w (trace s) = Some doc ->
  section t (yaml doc) = Some entries ->
  entries <> [] ->
  let offered := List.map (fun b => Some (binding_name b)) entries in
  let answer := w_showQuickPick w (EvPickChart :: trace s) offered in
  answer = None \/ answer = Some "" ->
  removeServiceBinding w t s
  = (Ret tt,
     {| cache := cache s; document := Some doc;
        trace := EvQuickPick offered "Select a Service to remove"
                 :: EvPickChart :: trace s |}).
Proof.
  intros Hload Hsec Hne offered answer Hanswer. subst offered answer.
  unfold removeServiceBinding, loadChartValues, showQuickPick. run_monad.
  rewrite Hload. simpl. rewrite Hsec.
  destruct entries as [|b entries]; [congruence|]. simpl in *.
  destruct Hanswer as [-> | ->]; reflexivity.
Qed.

Lemma removal_without_selection_witness :
  removeServiceBinding (demo_world demo_yaml (Some "") Rejected Rejected) serviceEnv
                       initial_store
  = (Ret tt,
     {| cache := cache initial_store; document := Some (demo_chart demo_yaml);
        trace := EvQuickPick [Some "redis"] "Select a Service to remove"
                 :: EvPickChart :: trace initial_store |}).
Proof.
  apply (removal_without_selection (demo_world demo_yaml (Some "") Rejected Rejected)
           initial_store serviceEnv (demo_chart demo_yaml) [redis_entry]).
  - reflexivity.
  - reflexivity.
  - discriminate.
  - right. reflexivity.
Defined.

(** X13: the persistence is delete-then-write with nothing in between: when
    the unlink fails, [writeSecretData] throws without attempting the write,
    yet the document object in memory already carries the new entry. *)
Theorem writeSecretData_failed_unlink
    (w : World) (t : ServiceType) (bindingName : string) (value : SecretValue)
    (chartYaml : ChartYaml) (s : Store) :
  w_unlinkAsync w (trace s) (path chartYaml) = false ->
  writeSecretData w t bindingName value chartYaml s
  = (Throw HostError,
     {| cache := cache s;
        document := Some {| path := path chartYaml;
                            yaml := push_binding t bindingName value (yaml chartYaml) |};
        trace := EvUnlink (path chartYaml) :: trace s |}).
Proof.
  intros Hfail. unfold writeSecretData, unlinkAsync, writeFile. run_monad.
  now rewrite Hfail.
Qed.

Lemma writeSecretData_failed_unlink_witness :
  writeSecretData (readonly_world bare_yaml) serviceEnv "redis"
                  (VString "redis.default.svc.cluster.local") (demo_chart bare_yaml)
                  initial_store
  = (Throw HostError,
     {| cache := cache initial_store;
        document := Some {| path := path (demo_chart bare_yaml);
                            yaml := push_binding serviceEnv "redis"
                                      (VString "redis.default.svc.cluster.local")
                                      (yaml (demo_chart bare_yaml)) |};
        trace := EvUnlink (path (demo_chart bare_yaml)) :: trace initial_store |}).
Proof.
  apply (writeSecretData_failed_unlink (readonly_world bare_yaml) serviceEnv "redis"
           (VString "redis.default.svc.cluster.local") (demo_chart bare_yaml) initial_store).
  reflexivity.
Defined.

(* ===================================================================== *)
(** * Persistence along the commands                                      *)
(* ===================================================================== *)

Lemma hoare_bind {A B} (P R Q : Store -> Prop) (m : M A) (k : A -> M B) :
  hoare P m R -> (forall s, R s -> Q s) -> (forall a, hoare R (k a) Q) ->
  hoare P (bind m k) Q.
Proof.
  intros Hm Hsub Hk s Hs. unfold bind. specialize (Hm s Hs).
  destruct (m s) as [[a|e] s1]; simpl in *; [now apply Hk | now apply Hsub].
Qed.

Lemma persistence_calls_app (t1 t2 : list Event) :
  persistence_calls (t1 ++ t2) = persistence_calls t1 ++ persistence_calls t2.
Proof. apply List.filter_app. Qed.

Lemma persistence_calls_quiet (e : Event) (t : list Event) :
  is_persistence e = false -> persistence_calls (e :: t) = persistence_calls t.
Proof. intros He. unfold persistence_calls. simpl. now rewrite He. Qed.

Lemma untouched_persisted (w : World) (base s : Store) :
  untouched base s -> persisted w base s.
Proof. intros H. now left. Qed.

Lemma untouched_refl (s : Store) : untouched s s.
Proof. exists []. auto. Qed.

Lemma untouched_calls (base s : Store) :
  untouched base s -> persistence_calls (trace s) = persistence_calls (trace base).
Proof. intros (mid & -> & Hmid). now rewrite persistence_calls_app, Hmid. Qed.

Lemma untouched_emit (base : Store) (e : Event) :
  is_persistence e = false -> stable (untouched base) (emit e).
Proof.
  intros He s (mid & Ht & Hmid). exists (e :: mid). unfold emit. cbn [snd trace].
  rewrite Ht. split; [reflexivity|]. now rewrite (persistence_calls_quiet e mid He).
Qed.

Lemma untouched_get_trace (base : Store) : stable (untouched base) get_trace.
Proof. intros s Hs. exact Hs. Qed.

Lemma untouched_get_cache (base : Store) : stable (untouched base) get_cache.
Proof. intros s Hs. exact Hs. Qed.

Lemma untouched_set_cache (base : Store) (c : InstanceCache) :
  stable (untouched base) (set_cache c).
Proof. intros s Hs. exact Hs. Qed.

Lemma untouched_set_document (base : Store) (d : ChartYaml) :
  stable (untouched base) (set_document d).
Proof. intros s Hs. exact Hs. Qed.

Lemma untouched_succeed (base : Store) (ok : bool) : stable (untouched base) (succeed ok).
Proof. destruct ok; intros s Hs; exact Hs. Qed.

Lemma untouched_settle (base : Store) (o : ExecOutcome) :
  stable (untouched base) (settle o).
Proof. destruct o; intros s Hs; exact Hs. Qed.

Ltac untouched_step :=
  first
    [ apply untouched_succeed | apply untouched_settle | apply stable_ret
    | apply stable_throw | apply untouched_emit; reflexivity | apply untouched_get_trace
    | apply untouched_get_cache | apply untouched_set_cache | apply untouched_set_document
    | apply stable_bind; [|intros ?] | apply stable_try_catch
    | match goal with
      | |- stable _ (match ?x with _ => _ end) => destruct x
      end ].

Lemma untouched_getServiceInstances (w : World) (base : Store) :
  stable (untouched base) (getServiceInstances w).
Proof.
  unfold getServiceInstances, execCore, showErrorMessage. repeat untouched_step.
Qed.

Lemma persisted_emit (w : World) (base : Store) (e : Event) :
  is_persistence e = false -> stable (persisted w base) (emit e).
Proof.
  intros He s [Hs|(p & y & mid & post & Hd & Ht & Hmid & Hcase)].
  - left. now apply untouched_emit.
  - right. exists p, y, mid, (e :: post). unfold emit. cbn [snd trace document].
    rewrite Ht. split; [exact Hd|]. split; [reflexivity|]. split; [exact Hmid|].
    now rewrite (persistence_calls_quiet e post He).
Qed.

Lemma persisted_get_trace (w : World) (base : Store) : stable (persisted w base) get_trace.
Proof. intros s Hs. exact Hs. Qed.

Lemma persisted_succeed (w : World) (base : Store) (ok : bool) :
  stable (persisted w base) (succeed ok).
Proof. destruct ok; intros s Hs; exact Hs. Qed.

Ltac persisted_step :=
  first
    [ apply persisted_succeed | apply stable_ret | apply stable_throw
    | apply persisted_emit; reflexivity | apply persisted_get_trace
    | apply stable_bind; [|intros ?]
    | match goal with
      | |- stable _ (match ?x with _ => _ end) => destruct x
      end ].

(** The one place where the file is touched: the document object is set,
    the file unlinked and then written. *)
Lemma hoare_rewrite (w : World) (base : Store) (p : string) (y : Yaml) :
  hoare (untouched base)
        (set_document {| path := p; yaml := y |} ;;; unlinkAsync w p ;;; writeFile w p y)
        (persisted w base).
Proof.
  intros s (mid & Ht & Hmid). right. exists p, y, mid.
  unfold unlinkAsync, writeFile. run_monad. rewrite Ht.
  destruct (w_unlinkAsync w (mid ++ trace base) p) eqn:Hunlink; simpl.
  - exists [EvWriteFile p y].
    destruct (w_writeFile w _ p); simpl; auto 6.
  - exists []. simpl. auto 6.
Qed.

Lemma hoare_quiet_end {A} (w : World) (base : Store) (m : M A) :
  stable (untouched base) m -> hoare (untouched base) m (persisted w base).
Proof. intros Hm s Hs. left. now apply Hm. Qed.

Lemma hoare_bind_quiet {A B} (w : World) (base : Store) (m : M A) (k : A -> M B) :
  stable (untouched base) m ->
  (forall a, hoare (untouched base) (k a) (persisted w base)) ->
  hoare (untouched base) (bind m k) (persisted w base).
Proof.
  intros Hm Hk. apply (hoare_bind _ (untouched base)); auto using untouched_persisted.
Qed.

Lemma hoare_bind_rewrite {A B} (w : World) (base : Store) (m : M A) (k : A -> M B) :
  hoare (untouched base) m (persisted w base) ->
  (forall a, stable (persisted w base) (k a)) ->
  hoare (untouched base) (bind m k) (persisted w base).
Proof.
  intros Hm Hk. apply (hoare_bind _ (persisted w base)); auto.
Qed.

Ltac prefix_step :=
  first
    [ apply hoare_rewrite
    | apply hoare_quiet_end; solve [repeat untouched_step]
    | apply hoare_bind_quiet; [solve [repeat untouched_step] | intros ?]
    | apply hoare_bind_rewrite;
      [apply hoare_rewrite | intros ?; solve [repeat persisted_step]]
    | match goal with
      | |- hoare _ (match ?x with _ => _ end) _ => destruct x
      end ].

Lemma persisted_removeServiceBinding (w : World) (base : Store) t :
  hoare (untouched base) (removeServiceBinding w t) (persisted w base).
Proof.
  unfold removeServiceBinding, loadChartValues, showQuickPick, showInformationMessage.
  repeat prefix_step.
Qed.

Lemma persisted_addService (w : World) (base : Store) :
  hoare (untouched base) (addService w) (persisted w base).
Proof.
  unfold addService, loadChartValues, kubectl_invokeAsync, showQuickPick,
    showInformationMessage, writeUsageToClipboard, clipboardy_write.
  repeat prefix_step.
Qed.

Lemma persisted_addExternalService (w : World) (base : Store) :
  hoare (untouched base) (addExternalService w) (persisted w base).
Proof.
  unfold addExternalService, loadChartValues, showQuickPick, createOrGetServiceBinding,
    getSecretData, kubectl_invokeAsync, execCore, showInformationMessage, showErrorMessage,
    writeUsageToClipboard, clipboardy_write, getServiceInstances.
  repeat prefix_step.
Qed.

(** X14: a command rewrites the values file at most once, and only by
    delete-then-write: after any exported command either its log has no new
    file operation, or it has exactly one new unlink, made when the log was
    [mid ++ trace s]; if that unlink failed no file operation follows it,
    and if it succeeded exactly one does, the write of the same path with
    the content of the document object the command leaves in memory. *)
Theorem commands_rewrite_at_most_once (w : World) (cmd : Command) (s : Store) :
  let s' := run w cmd s in
  persistence_calls (trace s') = persistence_calls (trace s)
  \/ exists p y mid post,
      document s' = Some {| path := p; yaml := y |}
      /\ trace s' = post ++ EvUnlink p :: mid ++ trace s
      /\ persistence_calls mid = []
      /\ ((w_unlinkAsync w (mid ++ trace s) p = false /\ persistence_calls post = [])
          \/ (w_unlinkAsync w (mid ++ trace s) p = true
              /\ persistence_calls post = [EvWriteFile p y])).
Proof.
  assert (H : persisted w s (run w cmd s)).
  { destruct cmd; simpl.
    - apply (persisted_addService w s s), untouched_refl.
    - apply (persisted_removeServiceBinding w s serviceEnv s), untouched_refl.
    - apply (persisted_addExternalService w s s), untouched_refl.
    - apply (persisted_removeServiceBinding w s serviceCatalogEnv s), untouched_refl.
    - left. apply (untouched_getServiceInstances w s s), untouched_refl. }
  destruct H as [H|H]; [left; now apply untouched_calls | right; exact H].
Qed.

(* ===================================================================== *)
(** * Further properties of the flows                                     *)
(* ===================================================================== *)

Lemma kubectl_invokeAsync_ok (w : World) (command : string) (s : Store) (r : ShellResult) :
  w_kubectl w (trace s) command = Resolved r ->
  kubectl_invokeAsync w command s
  = (Ret r, {| cache := cache s; document := document s;
               trace := EvKubectl command :: trace s |}).
Proof. intros H. unfold kubectl_invokeAsync. run_monad. now rewrite H. Qed.

Lemma loadChartValues_failed (w : World) (s : Store) :
  w_loadChart w (trace s) = None -> loadChartValues w s = (Throw HostError, unloaded s).
Proof. intros H. unfold loadChartValues. run_monad. now rewrite H. Qed.

(** X15: a chart that cannot be loaded ends every command at once: the
    error leaves [addService], [addExternalService] and the removal flow
    before any CLI call, prompt, notice or file operation, and the cache
    and the document object stay as they were. *)
Theorem load_failure_ends_command (w : World) (s : Store) (t : ServiceType) :
  w_loadChart w (trace s) = None ->
  addService w s = (Throw HostError, unloaded s)
  /\ addExternalService w s = (Throw HostError, unloaded s)
  /\ removeServiceBinding w t s = (Throw HostError, unloaded s).
Proof.
  intros Hload. pose proof (loadChartValues_failed w s Hload) as H.
  unfold addService, addExternalService, removeServiceBinding.
  now rewrite !(bind_throw_eq _ _ _ _ _ H).
Qed.

Lemma load_failure_ends_command_witness :
  addService chartless_world initial_store = (Throw HostError, unloaded initial_store)
  /\ addExternalService chartless_world initial_store
     = (Throw HostError, unloaded initial_store)
  /\ removeServiceBinding chartless_world serviceEnv initial_store
     = (Throw HostError, unloaded initial_store).
Proof.
  apply (load_failure_ends_command chartless_world initial_store serviceEnv).
  reflexivity.
Defined.

(** X16: when [kubectl get svc] answers with the failure code -1,
    [addService] returns silently: no notice, no prompt, no file operation;
    the output is not even parsed. *)
Theorem addService_listing_failed
    (w : World) (s : Store) (doc : ChartYaml) (listing : ShellResult) :
  w_loadChart w (trace s) = Some doc ->
  w_kubectl w (EvPickChart :: trace s) "get svc -o json" = Resolved listing ->
  code listing = -1 ->
  addService w s
  = (Ret tt, {| cache := cache s; document := Some doc;
                trace := EvKubectl "get svc -o json" :: EvPickChart :: trace s |}).
Proof.
  intros Hload Hlist Hcode. unfold addService.
  step_with (loadChartValues_ok w s doc Hload).
  pose proof (kubectl_invokeAsync_ok w _ (loaded doc s) listing Hlist) as Hk.
  unfold loaded in Hk. cbn [cache document trace] in Hk. step_with Hk.
  now rewrite Hcode.
Qed.

Lemma addService_listing_failed_witness :
  let listing := {| code := -1; stdout := ""; stderr := "kubectl not found" |} in
  let w := services_world demo_yaml (Some "redis") listing [] in
  addService w initial_store
  = (Ret tt, {| cache := cache initial_store; document := Some (demo_chart demo_yaml);
                trace := EvKubectl "get svc -o json" :: EvPickChart
                         :: trace initial_store |}).
Proof.
  intros listing w.
  apply (addService_listing_failed w initial_store (demo_chart demo_yaml) listing);
    reflexivity.
Defined.

(** X17: when the namespace has no service, [addService] shows "No
    services found in current namespace" and returns without a prompt or a
    file operation. *)
Theorem addService_no_services
    (w : World) (s : Store) (doc : ChartYaml) (listing : ShellResult) :
  w_loadChart w (trace s) = Some doc ->
  w_kubectl w (EvPickChart :: trace s) "get svc -o json" = Resolved listing ->
  code listing <> -1 ->
  w_parseServices w (stdout listing) = Some [] ->
  addService w s
  = (Ret tt, {| cache := cache s; document := Some doc;
                trace := EvInfo "No services found in current namespace"
                         :: EvKubectl "get svc -o json" :: EvPickChart :: trace s |}).
Proof.
  intros Hload Hlist Hcode Hparse. unfold addService.
  step_with (loadChartValues_ok w s doc Hload).
  pose proof (kubectl_invokeAsync_ok w _ (loaded doc s) listing Hlist) as Hk.
  unfold loaded in Hk. cbn [cache document trace] in Hk. step_with Hk.
  apply Z.eqb_neq in Hcode. rewrite Hcode, Hparse. reflexivity.
Qed.

Lemma addService_no_services_witness :
  let w := services_world demo_yaml (Some "redis") (ok_result "{items}") [] in
  addService w initial_store
  = (Ret tt, {| cache := cache initial_store; document := Some (demo_chart demo_yaml);
                trace := EvInfo "No services found in current namespace"
                         :: EvKubectl "get svc -o json" :: EvPickChart
                         :: trace initial_store |}).
Proof.
  intros w.
  apply (addService_no_services w initial_store (demo_chart demo_yaml)
           (ok_result "{items}"));
    [reflexivity | reflexivity | discriminate | reflexivity].
Defined.

Lemma write_tail_document {B} (w : World) (t : ServiceType) (n : string) (v : SecretValue)
    (c : ChartYaml) (k : unit -> M B) (s : Store) :
  (forall a base, stable (quiet base) (k a)) ->
  document (snd (bind (writeSecretData w t n v c) k s))
  = Some {| path := path c; yaml := push_binding t n v (yaml c) |}.
Proof.
  intros Hk.
  destruct (writeSecretData_persists w t n v c s) as [Hdoc _].
  destruct (writeSecretData w t n v c s) as [[a|e] s1] eqn:Hwrite; cbn [snd] in Hdoc.
  - rewrite (bind_ret_eq _ _ _ _ _ Hwrite).
    destruct (Hk a s1 s1 (quiet_refl s1)) as [Hd _]. now rewrite Hd.
  - now rewrite (bind_throw_eq _ _ _ _ _ Hwrite).
Qed.

Lemma named_services_head (X : string) (items : list Service) (svc : Service)
    (rest : list Service) :
  named_services X items = svc :: rest -> svc_name svc = X /\ items <> [].
Proof.
  intros H. split.
  - assert (Hin : In svc (named_services X items)) by (rewrite H; now left).
    apply filter_In in Hin as [_ Heq]. now apply String.eqb_eq.
  - intros ->. discriminate H.
Qed.

(** X18: binding an in-cluster service records its DNS name: when the
    selected name [X] is not yet bound, [addService] appends to [serviceEnv]
    the entry named [X] whose value is [X.<namespace>.svc.cluster.local],
    with the namespace of the first listed service of that name, and leaves
    the other section as it was. *)
Theorem addService_records_dns_name
    (w : World) (s : Store) (doc : ChartYaml) (listing : ShellResult)
    (items : list Service) (X : string) (svc : Service) (rest : list Service) :
  (forall h, w_loadChart w h = Some doc) ->
  (forall h, w_kubectl w h "get svc -o json" = Resolved listing) ->
  code listing <> -1 ->
  w_parseServices w (stdout listing) = Some items ->
  (forall h offered, w_showQuickPick w h offered = Some X) ->
  X <> "" ->
  named_services X items = svc :: rest ->
  isBindingAdded serviceEnv X (yaml doc) = false ->
  let s' := snd (addService w s) in
  section_of_document serviceEnv s'
  = Some (entries_of (section serviceEnv (yaml doc))
          ++ [ServiceBinding X
                (VString (X +:+ "." +:+ svc_namespace svc +:+ ".svc.cluster.local"))])
  /\ section_of_document serviceCatalogEnv s' = section serviceCatalogEnv (yaml doc).
Proof.
  intros Hload Hlist Hcode Hparse Hpick HX Hnamed Hnew s'. subst s'.
  destruct (named_services_head X items svc rest Hnamed) as [Hname Hitems].
  unfold addService.
  step_with (loadChartValues_ok w s doc (Hload _)).
  pose proof (kubectl_invokeAsync_ok w "get svc -o json" (loaded doc s) listing (Hlist _))
    as Hk.
  unfold loaded in Hk. cbn [cache document trace] in Hk. step_with Hk.
  apply Z.eqb_neq in Hcode. rewrite Hcode, Hparse.
  destruct items as [|item items']; [congruence|].
  cbn [length Nat.eqb]. step. rewrite Hpick.
  apply String.eqb_neq in HX. rewrite HX.
  change (List.filter (fun service => String.eqb (svc_name service) X) (item :: items'))
    with (named_services X (item :: items')).
  rewrite Hnamed, Hname, Hnew.
  unfold section_of_document.
  rewrite write_tail_document.
  - cbn [yaml]. rewrite push_binding_spec.
    change serviceCatalogEnv with (other_kind serviceEnv) at 1.
    rewrite section_set_same, section_set_other. auto.
  - intros a base. apply stable_bind.
    + apply quiet_writeUsageToClipboard.
    + intros ?. apply quiet_emit. reflexivity.
Qed.

Lemma addService_records_dns_name_witness :
  let w := demo_world bare_yaml (Some "redis") Rejected Rejected in
  let s' := snd (addService w initial_store) in
  section_of_document serviceEnv s'
  = Some (entries_of (section serviceEnv bare_yaml)
          ++ [ServiceBinding "redis"
                (VString ("redis" +:+ "." +:+ "default" +:+ ".svc.cluster.local"))])
  /\ section_of_document serviceCatalogEnv s' = section serviceCatalogEnv bare_yaml.
Proof.
  intros w.
  apply (addService_records_dns_name w initial_store (demo_chart bare_yaml)
           (ok_result "{items}")
           [{| svc_name := "redis"; svc_namespace := "default" |}] "redis"
           {| svc_name := "redis"; svc_namespace := "default" |} []).
  - intros h. reflexivity.
  - intros h. reflexivity.
  - discriminate.
  - reflexivity.
  - intros h offered. reflexivity.
  - discriminate.
  - reflexivity.
  - reflexivity.
Defined.

(** X19: a dismissed prompt in [addService] is not an abort: for every
    non-empty listing the flow goes on to read [.name] of [undefined] and a
    TypeError leaves the command; the file and the document are not
    touched. *)
Theorem addService_dismissed_prompt
    (w : World) (s : Store) (doc : ChartYaml) (listing : ShellResult)
    (items : list Service) :
  w_loadChart w (trace s) = Some doc ->
  w_kubectl w (EvPickChart :: trace s) "get svc -o json" = Resolved listing ->
  code listing <> -1 ->
  w_parseServices w (stdout listing) = Some items ->
  items <> [] ->
  let offered := List.map (fun service => Some (svc_name service)) items in
  w_showQuickPick w (EvKubectl "get svc -o json" :: EvPickChart :: trace s) offered = None ->
  addService w s
  = (Throw TypeError,
     {| cache := cache s; document := Some doc;
        trace := EvQuickPick offered "Select a Kubernetes service to bind"
                 :: EvKubectl "get svc -o json" :: EvPickChart :: trace s |}).
Proof.
  intros Hload Hlist Hcode Hparse Hitems offered Hpick. subst offered.
  unfold addService.
  step_with (loadChartValues_ok w s doc Hload).
  pose proof (kubectl_invokeAsync_ok w "get svc -o json" (loaded doc s) listing Hlist) as Hk.
  unfold loaded in Hk. cbn [cache document trace] in Hk. step_with Hk.
  apply Z.eqb_neq in Hcode. rewrite Hcode, Hparse.
  destruct items as [|item items']; [congruence|].
  cbn [length Nat.eqb]. step. cbn [trace] in *. rewrite Hpick.
  assert (Hnone : List.filter (fun _ : Service => false) (item :: items') = []).
  { clear. induction (item :: items') as [|x xs IH]; [reflexivity | exact IH]. }
  rewrite Hnone. reflexivity.
Qed.

Lemma addService_dismissed_prompt_witness :
  let w := demo_world demo_yaml None Rejected Rejected in
  addService w initial_store
  = (Throw TypeError,
     {| cache := cache initial_store; document := Some (demo_chart demo_yaml);
        trace := EvQuickPick [Some "redis"] "Select a Kubernetes service to bind"
                 :: EvKubectl "get svc -o json" :: EvPickChart :: trace initial_store |}).
Proof.
  intros w.
  apply (addService_dismissed_prompt w initial_store (demo_chart demo_yaml)
           (ok_result "{items}")
           [{| svc_name := "redis"; svc_namespace := "default" |}]);
    [reflexivity | reflexivity | discriminate | reflexivity | discriminate | reflexivity].
Defined.

(** X20: the two CLI wrappers of the external flow keep their failures to
    themselves: [getServiceInstances] and [createOrGetServiceBinding] always
    return, whatever the CLI does, and neither touches the document object
    or the file; [createOrGetServiceBinding] leaves the cache alone as well.
    [getSecretData] lets an exception out in one case only: the lookup
    exited with 0 and [JSON.parse(stdout).data] throws on its output (the
    SyntaxError of a text that is not JSON, the TypeError of [.data] on
    [null]); that exception leaves the function as it is. *)
Theorem cli_wrappers_contain_failures
    (w : World) (serviceName : option string) (secretName : string) (s : Store) :
  (exists r s1, getServiceInstances w s = (Ret r, s1) /\ quiet s s1)
  /\ (exists b s2, createOrGetServiceBinding w serviceName s = (Ret b, s2)
                   /\ cache s2 = cache s /\ quiet s s2)
  /\ (forall e, fst (getSecretData w secretName s) = Throw e ->
                exists r,
                  w_kubectl w (trace s) ("get secret " +:+ secretName +:+ " -o json")
                  = Resolved r
                  /\ code r = 0
                  /\ w_parseSecret w (stdout r) = None
                  /\ e = w_parseError w (stdout r)).
Proof.
  split; [|split].
  - pose proof (getServiceInstances_cases w s) as H. simpl in H.
    destruct (getServiceInstances w s) as [r s1]. simpl in H.
    destruct H as [[_ H]|[(_ & _ & _ & Hq & ->)|(_ & rows & -> & _ & Hq & _)]].
    + injection H as -> ->. eauto using quiet_refl.
    + eauto.
    + eauto.
  - destruct (createOrGetServiceBinding_cases w serviceName s)
      as (b & s2 & Hrun & Hc & Hq & _).
    eauto.
  - unfold getSecretData, kubectl_invokeAsync, showErrorMessage. run_monad.
    destruct (w_kubectl w (trace s) _) as [|r]; simpl; [discriminate|].
    destruct (code r =? 0) eqn:Hcode; simpl; [|discriminate].
    destruct (w_parseSecret w (stdout r)) eqn:Hparse; simpl; [discriminate|].
    intros e [= <-]. exists r. apply Z.eqb_eq in Hcode. auto.
Qed.

(** X21: the duplicate check of the external flow: when the bind of the
    selected instance succeeds and a [serviceCatalogEnv] entry of that name
    is already in the document, [addExternalService] returns without a
    notice and leaves the document object and the file as they were. *)
Theorem addExternalService_duplicate_is_noop
    (w : World) (s : Store) (doc : ChartYaml) (selected : string) (bound : ShellResult) :
  (forall h, w_loadChart w h = Some doc) ->
  (forall h items, w_showQuickPick w h items = Some selected) ->
  Js.nonempty selected = true ->
  (forall h command, w_execCore w h command = Resolved bound) ->
  code bound = 0 ->
  isBindingAdded serviceCatalogEnv selected (yaml doc) = true ->
  let out := addExternalService w s in
  fst out = Ret tt
  /\ document (snd out) = Some doc
  /\ persistence_calls (trace (snd out)) = persistence_calls (trace s)
  /\ notices (trace (snd out)) = notices (trace s).
Proof.
  intros Hload Hpick Hname Hexec Hcode Hdup out. subst out.
  assert (Hok : forall h command, lookup_fails (w_execCore w h command) = false).
  { intros h command. rewrite Hexec. simpl. now rewrite Hcode. }
  unfold addExternalService.
  step_with (loadChartValues_ok w s doc (Hload _)). step.
  destruct (populate_cases w {| cache := cache s; document := Some doc;
                                trace := EvPickChart :: trace s |})
    as (s1 & Hrun & [Hd1 Hp1] & Hn1).
  destruct Hn1 as [Hn1|Hn1]; [|simpl in Hn1; rewrite Hok in Hn1; discriminate].
  simpl in Hrun, Hd1, Hp1, Hn1.
  step_with Hrun. step. step. rewrite Hpick.
  match goal with
  | |- context [bind (createOrGetServiceBinding w (Some selected)) _ ?st] =>
      destruct (createOrGetServiceBinding_cases w (Some selected) st)
        as (b & s3 & Hbind & _ & [Hd3 Hp3] & _ & Hb)
  end.
  destruct (Hb (Hok _ _)) as [-> Hn3]. simpl in Hd3, Hp3, Hn3.
  step_with Hbind. simpl. rewrite Hname. simpl. rewrite Hdup. simpl.
  repeat split; congruence.
Qed.

Lemma addExternalService_duplicate_is_noop_witness :
  let w := demo_world crowded_yaml (Some "foo") (Resolved (ok_result scenario_table))
                      Rejected in
  let out := addExternalService w initial_store in
  fst out = Ret tt
  /\ document (snd out) = Some (demo_chart crowded_yaml)
  /\ persistence_calls (trace (snd out)) = persistence_calls (trace initial_store)
  /\ notices (trace (snd out)) = notices (trace initial_store).
Proof.
  intros w.
  apply (addExternalService_duplicate_is_noop w initial_store (demo_chart crowded_yaml)
           "foo" (ok_result scenario_table)).
  - intros h. reflexivity.
  - intros h items. reflexivity.
  - reflexivity.
  - intros h command. simpl.
    destruct (String.eqb command "svcat get instances"); reflexivity.
  - reflexivity.
  - reflexivity.
Defined.

Lemma getSecretData_ok (w : World) (secretName : string) (s : Store) (r : ShellResult)
    (data : option (list string)) :
  w_kubectl w (trace s) ("get secret " +:+ secretName +:+ " -o json") = Resolved r ->
  code r = 0 ->
  w_parseSecret w (stdout r) = Some data ->
  getSecretData w secretName s
  = (Ret data,
     {| cache := cache s; document := document s;
        trace := EvKubectl ("get secret " +:+ secretName +:+ " -o json") :: trace s |}).
Proof.
  intros Hk Hcode Hparse.
  unfold getSecretData, kubectl_invokeAsync. run_monad.
  rewrite Hk. simpl. rewrite Hcode. simpl. now rewrite Hparse.
Qed.

(** X22: a successful external binding records the secret's key names: when
    the bind of the selected instance and the lookup of its secret succeed
    and the instance is not yet bound, [addExternalService] appends to
    [serviceCatalogEnv] the entry named after the selection whose [vars] are
    the keys of the secret's data, and leaves [serviceEnv] as it was. *)
Theorem addExternalService_records_secret_keys
    (w : World) (s : Store) (doc : ChartYaml) (selected : string)
    (bound secret : ShellResult) (keys : list string) :
  (forall h, w_loadChart w h = Some doc) ->
  (forall h items, w_showQuickPick w h items = Some selected) ->
  Js.nonempty selected = true ->
  (forall h command, w_execCore w h command = Resolved bound) ->
  code bound = 0 ->
  isBindingAdded serviceCatalogEnv selected (yaml doc) = false ->
  (forall h, w_kubectl w h ("get secret " +:+ selected +:+ " -o json") = Resolved secret) ->
  code secret = 0 ->
  w_parseSecret w (stdout secret) = Some (Some keys) ->
  let s' := snd (addExternalService w s) in
  section_of_document serviceCatalogEnv s'
  = Some (entries_of (section serviceCatalogEnv (yaml doc))
          ++ [ServiceCatalogBinding selected (VKeys keys)])
  /\ section_of_document serviceEnv s' = section serviceEnv (yaml doc).
Proof.
  intros Hload Hpick Hname Hexec Hcode Hnew Hk Hscode Hparse s'. subst s'.
  assert (Hok : forall h command, lookup_fails (w_execCore w h command) = false).
  { intros h command. rewrite Hexec. simpl. now rewrite Hcode. }
  unfold addExternalService.
  step_with (loadChartValues_ok w s doc (Hload _)). step.
  destruct (populate_cases w {| cache := cache s; document := Some doc;
                                trace := EvPickChart :: trace s |})
    as (s1 & Hrun & _ & _).
  simpl in Hrun. step_with Hrun. step. step. rewrite Hpick.
  match goal with
  | |- context [bind (createOrGetServiceBinding w (Some selected)) _ ?st] =>
      destruct (createOrGetServiceBinding_cases w (Some selected) st)
        as (b & s3 & Hbind & _ & _ & _ & Hb)
  end.
  destruct (Hb (Hok _ _)) as [-> _].
  step_with Hbind. cbn [binding_of truthy]. rewrite Hname. cbn [negb]. rewrite Hnew.
  step_with (getSecretData_ok w selected s3 secret (Some keys) (Hk _) Hscode Hparse).
  unfold section_of_document. rewrite write_tail_document.
  - cbn [yaml]. rewrite push_binding_spec.
    change serviceEnv with (other_kind serviceCatalogEnv) at 1.
    rewrite section_set_same, section_set_other. auto.
  - intros a base. apply stable_bind.
    + apply quiet_writeUsageToClipboard.
    + intros ?. apply quiet_emit. reflexivity.
Qed.

Lemma addExternalService_records_secret_keys_witness :
  let w := demo_world demo_yaml (Some "foo") (Resolved (ok_result scenario_table))
                      (Resolved (ok_result "{data}")) in
  let s' := snd (addExternalService w initial_store) in
  section_of_document serviceCatalogEnv s'
  = Some (entries_of (section serviceCatalogEnv demo_yaml)
          ++ [ServiceCatalogBinding "foo" (VKeys ["host"; "password"])])
  /\ section_of_document serviceEnv s' = section serviceEnv demo_yaml.
Proof.
  intros w.
  apply (addExternalService_records_secret_keys w initial_store (demo_chart demo_yaml)
           "foo" (ok_result scenario_table) (ok_result "{data}") ["host"; "password"]).
  - intros h. reflexivity.
  - intros h items. reflexivity.
  - reflexivity.
  - intros h command. simpl.
    destruct (String.eqb command "svcat get instances"); reflexivity.
  - reflexivity.
  - reflexivity.
  - intros h. reflexivity.
  - reflexivity.
  - reflexivity.
Defined.

(** X23: the usage hint of an external service is announced before it is
    written: [writeUsageToClipboard] shows "Wrote Service Usage information
    to your clipboard." first, so when the clipboard write fails the error
    leaves the function with the notice already shown; for an in-cluster
    service no notice is shown by this function at all. *)
Theorem usage_hint_announced_before_written
    (w : World) (bindingName : string) (secretKeys : SecretValue) (s : Store) :
  w_clipboard w (EvInfo "Wrote Service Usage information to your clipboard." :: trace s)
  = false ->
  let out := writeUsageToClipboard w serviceCatalogEnv bindingName secretKeys s in
  fst out = Throw HostError
  /\ notices (trace (snd out))
     = EvInfo "Wrote Service Usage information to your clipboard." :: notices (trace s)
  /\ notices (trace (snd (writeUsageToClipboard w serviceEnv bindingName secretKeys s)))
     = notices (trace s).
Proof.
  intros Hfail out. subst out.
  unfold writeUsageToClipboard, clipboardy_write, showInformationMessage. run_monad.
  rewrite Hfail. simpl.
  destruct (w_clipboard w (trace s)); simpl; auto.
Qed.

Lemma usage_hint_announced_before_written_witness :
  let out := writeUsageToClipboard clipless_world serviceCatalogEnv "foo"
                                   (VKeys ["host"]) initial_store in
  fst out = Throw HostError
  /\ notices (trace (snd out))
     = EvInfo "Wrote Service Usage information to your clipboard."
       :: notices (trace initial_store)
  /\ notices (trace (snd (writeUsageToClipboard clipless_world serviceEnv "foo"
                                                (VKeys ["host"]) initial_store)))
     = notices (trace initial_store).
Proof.
  apply (usage_hint_announced_before_written clipless_world "foo" (VKeys ["host"])
           initial_store).
  reflexivity.
Defined.

(* ===================================================================== *)
(** * The header lines of the table                                       *)
(* ===================================================================== *)

Lemma split_first_line (sep : ascii) (line rest : string) :
  occurs sep line = false ->
  Js.split sep (line +:+ String sep rest) = line :: Js.split sep rest.
Proof.
  induction line as [|c line IH]; intros Hocc.
  - rewrite append_empty_l. simpl. now rewrite Ascii.eqb_refl.
  - simpl in Hocc. apply orb_false_iff in Hocc as [Hc Hline].
    rewrite append_cons. simpl. rewrite Hc, (IH Hline). reflexivity.
Qed.

Lemma split_single_line (sep : ascii) (line : string) :
  occurs sep line = false -> Js.split sep line = [line].
Proof.
  induction line as [|c line IH]; intros Hocc; [reflexivity|].
  simpl in Hocc. apply orb_false_iff in Hocc as [Hc Hline].
  simpl. rewrite Hc, (IH Hline). reflexivity.
Qed.

(** X24: the first two lines are never interpreted: whatever the title and
    the column header say, the result is that of the same table with both
    lines blank; and an output of title and header only yields no record
    and leaves the cache as it was. *)
Theorem header_lines_are_skipped
    (title header body : string) (c : InstanceCache) :
  occurs Js.newline title = false ->
  occurs Js.newline header = false ->
  cleanUpInstanceResults (title +:+ String Js.newline (header +:+ String Js.newline body)) c
  = cleanUpInstanceResults (String Js.newline (String Js.newline body)) c
  /\ cleanUpInstanceResults (title +:+ String Js.newline header) c = ([], c)
  /\ cleanUpInstanceResults (title +:+ String Js.newline (header +:+ String Js.newline "")) c
     = ([], c).
Proof.
  intros Htitle Hheader. unfold cleanUpInstanceResults, Js.slice.
  rewrite !(split_first_line Js.newline title _ Htitle).
  rewrite !(split_first_line Js.newline header _ Hheader).
  rewrite (split_single_line Js.newline header Hheader).
  split; [reflexivity|]. split; reflexivity.
Qed.

Lemma header_lines_are_skipped_witness :
  let title := "TITLE" in
  let header := "NAME NAMESPACE CLASS PLAN STATUS" in
  let body := "foo  default  mysqldb  free  Ready" in
  cleanUpInstanceResults
    (title +:+ String Js.newline (header +:+ String Js.newline body)) empty_cache
  = cleanUpInstanceResults (String Js.newline (String Js.newline body)) empty_cache
  /\ cleanUpInstanceResults (title +:+ String Js.newline header) empty_cache
     = ([], empty_cache)
  /\ cleanUpInstanceResults
       (title +:+ String Js.newline (header +:+ String Js.newline "")) empty_cache
     = ([], empty_cache).
Proof.
  intros title header body.
  apply (header_lines_are_skipped title header body empty_cache); reflexivity.
Defined.
